(** * Nokia SR Linux Ansible collection: the interactive session engine

    A shallow embedding of [plugins/module_utils/srlinux.py]
    (class [SRLinuxConnection]) and of the comparison performed by
    [plugins/modules/srlinux_compare.py], with the properties the
    specification states about them.

    Text is a list of characters.  A character is a code point below 256
    ([ascii]); the Python predicates [str.isspace], [str.isalnum] and
    [str.lower] are the ones of the Unicode database on that range. *)

From Stdlib Require Import Ascii String List NArith Bool Lia.
From stdpp Require Import gmap strings list sorting.
Import ListNotations.

Local Open Scope char_scope.
Local Open Scope list_scope.

(** ** Characters and Python's string primitives *)

Module Py.

Abbreviation text := (list ascii).

(** A string literal as a text. *)
Definition lit (s : string) : text := list_ascii_of_string s.

Definition code (c : ascii) : N := N_of_ascii c.

Definition between (lo hi : N) (c : ascii) : bool :=
  ((lo <=? code c) && (code c <=? hi))%N.

Definition chr (n : N) : ascii := ascii_of_N n.

Definition ESC : ascii := chr 27.
Definition BEL : ascii := chr 7.
Definition LF : ascii := chr 10.

Definition ascii_eqb (a b : ascii) : bool := Ascii.eqb a b.

(** [[0-9]], [[a-zA-Z]] in a regular expression over [str]. *)
Definition is_digit (c : ascii) : bool := between 48 57 c.
Definition is_letter (c : ascii) : bool := between 65 90 c || between 97 122 c.

(** [str.isspace], also the class [\s] and the characters [str.strip] removes. *)
Definition isspace (c : ascii) : bool :=
  between 9 13 c || between 28 32 c || ascii_eqb c (chr 133) || ascii_eqb c (chr 160).

(** [str.isalnum]. *)
Definition isalnum (c : ascii) : bool :=
  is_digit c || is_letter c
  || ascii_eqb c (chr 170) || between 178 179 c || ascii_eqb c (chr 181)
  || between 185 186 c || between 188 190 c
  || between 192 214 c || between 216 246 c || between 248 255 c.

(** [str.lower], one character. *)
Definition lower_char (c : ascii) : ascii :=
  if between 65 90 c || between 192 214 c || between 216 222 c
  then chr (code c + 32) else c.

Definition lower (s : text) : text := map lower_char s.

Fixpoint lstrip (s : text) : text :=
  match s with
  | c :: s' => if isspace c then lstrip s' else s
  | [] => []
  end.

Definition rstrip (s : text) : text := rev (lstrip (rev s)).

(** [s.strip()] *)
Definition strip (s : text) : text := rstrip (lstrip s).

(** [s.startswith(p)] *)
Fixpoint startswith (p s : text) : bool :=
  match p, s with
  | [], _ => true
  | a :: p', b :: s' => ascii_eqb a b && startswith p' s'
  | _ :: _, [] => false
  end.

(** [p in s] *)
Fixpoint contains (p s : text) : bool :=
  startswith p s ||
  match s with
  | [] => false
  | _ :: s' => contains p s'
  end.

(** [s.split('\n')]: the result always has at least one element. *)
Fixpoint split_lines (s : text) : list text :=
  match s with
  | [] => [[]]
  | c :: s' =>
      if ascii_eqb c LF then [] :: split_lines s'
      else match split_lines s' with
           | l :: ls => (c :: l) :: ls
           | [] => [[c]]
           end
  end.

(** ['\n'.join(ls)] *)
Fixpoint join_lines (ls : list text) : text :=
  match ls with
  | [] => []
  | [l] => l
  | l :: ls' => l ++ LF :: join_lines ls'
  end.

(** [text.lower()] contains [marker]. *)
Definition mentions (marker : string) (output : text) : bool :=
  contains (lit marker) (lower output).

End Py.

Import Py.

(** ** Regular expressions used by the engine

    A pattern is given by its matcher at the head of a text: the number of
    characters of the leftmost match that starts there, if any.  [re_sub]
    is [re.sub(pattern, '', text)]: left to right, every match that does
    not overlap an earlier one is deleted. *)

Module Re.

Fixpoint re_sub_from (m : text -> option nat) (skip : nat) (s : text) : text :=
  match s with
  | [] => []
  | c :: s' =>
      match skip with
      | S k => re_sub_from m k s'
      | O =>
          match m s with
          | Some (S k) => re_sub_from m k s'
          | _ => c :: re_sub_from m 0 s'
          end
      end
  end.

Definition re_sub (m : text -> option nat) (s : text) : text := re_sub_from m 0 s.

(** [[0-9;]] *)
Definition is_param (c : ascii) : bool := is_digit c || ascii_eqb c ";".

(** [[0-9;]*[a-zA-Z]], greedy; the two classes are disjoint, so the
    greedy run is the only way to match. *)
Fixpoint params_then_letter (s : text) : option nat :=
  match s with
  | [] => None
  | c :: s' =>
      if is_param c then option_map S (params_then_letter s')
      else if is_letter c then Some 1 else None
  end.

(** [\x1b\[\??[0-9;]*[a-zA-Z]] *)
Definition csi (s : text) : option nat :=
  match s with
  | e :: "[" :: "?" :: s' =>
      if ascii_eqb e ESC then option_map (fun n => 3 + n) (params_then_letter s') else None
  | e :: "[" :: s' =>
      if ascii_eqb e ESC then option_map (fun n => 2 + n) (params_then_letter s') else None
  | _ => None
  end.

(** [.*?\x07]: the dot matches everything but a line feed. *)
Fixpoint until_bel (s : text) : option nat :=
  match s with
  | [] => None
  | c :: s' =>
      if ascii_eqb c BEL then Some 1
      else if ascii_eqb c LF then None
      else option_map S (until_bel s')
  end.

(** [\x1b\].*?\x07] *)
Definition osc (s : text) : option nat :=
  match s with
  | e :: "]" :: s' =>
      if ascii_eqb e ESC then option_map (fun n => 2 + n) (until_bel s') else None
  | _ => None
  end.

(** [\x1b[=>]] *)
Definition esc_shorthand (s : text) : option nat :=
  match s with
  | e :: c :: _ =>
      if ascii_eqb e ESC && (ascii_eqb c "=" || ascii_eqb c ">") then Some 2 else None
  | _ => None
  end.

(** [\x1b\([0-9;]*[a-zA-Z]] *)
Definition charset (s : text) : option nat :=
  match s with
  | e :: "(" :: s' =>
      if ascii_eqb e ESC then option_map (fun n => 2 + n) (params_then_letter s') else None
  | _ => None
  end.

(** A pattern that is [\x1b] followed by fixed characters. *)
Definition esc_literal (p : string) (s : text) : option nat :=
  if startswith (ESC :: lit p) s then Some (S (length (lit p))) else None.

(** [\x1b\[6n] *)
Definition status_report : text -> option nat := esc_literal "[6n".

(** [\x1b\[\?2004[hl]] *)
Definition bracketed_paste (s : text) : option nat :=
  match esc_literal "[?2004h" s with
  | Some n => Some n
  | None => esc_literal "[?2004l" s
  end.

(** [[\x00-\x08\x0b-\x0c\x0e-\x1f]] *)
Definition is_control (c : ascii) : bool :=
  between 0 8 c || between 11 12 c || between 14 31 c.

Definition control (s : text) : option nat :=
  match s with
  | c :: _ => if is_control c then Some 1 else None
  | [] => None
  end.

(** [^--\{.*\}--] with [re.match] on a line. *)
Definition banner (line : text) : bool :=
  startswith (lit "--{") line && contains (lit "}--") (skipn 3 line).

(** [^A:.*#] with [re.match] on a line. *)
Definition a_prompt (line : text) : bool :=
  startswith (lit "A:") line && contains (lit "#") (skipn 2 line).

(** [re.search(r'[#>]\s*$', s)]: the last character that is not white
    space is [#] or [>]. *)
Definition prompt (s : text) : bool :=
  match lstrip (rev s) with
  | c :: _ => ascii_eqb c "#" || ascii_eqb c ">"
  | [] => false
  end.

End Re.

Import Re.

(** ** SRLinuxConnection: the output normalizer *)

Definition _strip_ansi_codes (text0 : text) : text :=
  let text1 := re_sub csi text0 in
  let text2 := re_sub osc text1 in
  let text3 := re_sub esc_shorthand text2 in
  let text4 := re_sub charset text3 in
  let text5 := re_sub status_report text4 in
  let text6 := re_sub bracketed_paste text5 in
  re_sub control text6.

(** ** SRLinuxConnection: the prompt-synchronized read of [_send_command]

    The channel is what the shell object answers, poll after poll:
    [ready ch k] is [None] when [recv_ready()] is false at the [k]-th
    iteration and the decoded chunk of [recv(65535)] otherwise.  Time is
    counted in milliseconds; an iteration takes the 100 ms of
    [time.sleep(0.1)] and [lag ch k] more. *)

Module Reader.

Record channel := { ready : nat -> option text; lag : nat -> N }.

Definition max_wait : N := 30000.
Definition poll_interval : N := 100.

(** The [while time.time() - start_time < max_wait] loop; [k] counts the
    iterations made, [elapsed] is [time.time() - start_time]. *)
Fixpoint read_loop (fuel : nat) (ch : channel) (k : nat) (elapsed : N)
    (output : text) : option text :=
  match fuel with
  | O => None
  | S fuel' =>
      if (elapsed <? max_wait)%N then
        let elapsed' := (elapsed + poll_interval + lag ch k)%N in
        match ready ch k with
        | Some chunk =>
            let output' := output ++ chunk in
            let clean_output := _strip_ansi_codes output' in
            if prompt clean_output then Some output'
            else read_loop fuel' ch (S k) elapsed' output'
        | None => read_loop fuel' ch (S k) elapsed' output
        end
      else Some output
  end.

(** What [_send_command] returns once the command is sent. *)
Definition collect_output (fuel : nat) (ch : channel) (wait_for_prompt : bool)
    : option text :=
  if wait_for_prompt then read_loop fuel ch 0 0%N [] else Some [].

(** The buffer after [n] polls, and the clock at the [n]-th test. *)
Fixpoint accumulated (ch : channel) (n : nat) : text :=
  match n with
  | O => []
  | S n' => accumulated ch n' ++ match ready ch n' with Some chunk => chunk | None => [] end
  end.

Fixpoint elapsed_at (ch : channel) (n : nat) : N :=
  match n with
  | O => 0%N
  | S n' => (elapsed_at ch n' + poll_interval + lag ch n')%N
  end.

End Reader.

(** ** SRLinuxConnection: sessions and candidate transactions

    [fail_json] ends the module run: it is a result of its own, which no
    later statement of the method follows.  The device is described by
    what [_send_command] returns for the last command sent, given
    everything sent on the shell so far. *)

Inductive failure :=
| ConnectFailed
| NotConnected
| CandidateEntryFailed
| ConfigurationError (output : text)
| CommitFailed (output : text)
| IntendedFileNotFound
| ParamikoMissing
| ComparisonFailed (reason : text).

Definition msg (f : failure) : text :=
  match f with
  | ConnectFailed => lit "Failed to connect"
  | NotConnected => lit "Not connected to device"
  | CandidateEntryFailed => lit "Failed to enter candidate mode"
  | ConfigurationError output => lit "Configuration error: " ++ output
  | CommitFailed output => lit "Commit failed: " ++ output
  | IntendedFileNotFound => lit "Intended config file not found"
  | ParamikoMissing => lit "paramiko is required but not installed. Install it using: pip install paramiko"
  | ComparisonFailed reason => lit "Configuration comparison failed: " ++ reason
  end.

Inductive outcome (A : Type) :=
| Returned (a : A)
| Raised (exception : text)
| FailJson (f : failure).
Arguments Returned {A} a.
Arguments Raised {A} exception.
Arguments FailJson {A} f.

Record device := { reachable : bool; respond : list text -> text }.

Record session := { connected : bool; sent : list text }.

Definition M (A : Type) : Type := device -> session -> outcome A * session.

Definition ret {A} (a : A) : M A := fun _ s => (Returned a, s).

Definition bind {A B} (m : M A) (k : A -> M B) : M B :=
  fun d s =>
    match m d s with
    | (Returned a, s') => k a d s'
    | (Raised e, s') => (Raised e, s')
    | (FailJson f, s') => (FailJson f, s')
    end.

Definition fail_json {A} (f : failure) : M A := fun _ s => (FailJson f, s).

Notation "x <- m ;; k" := (bind m (fun x => k))
  (at level 100, m at next level, right associativity).
Notation "m ;;; k" := (bind m (fun _ => k))
  (at level 100, right associativity).

Definition connect : M bool :=
  fun d s =>
    if connected s then (Returned true, s)
    else if reachable d then (Returned true, {| connected := true; sent := sent s |})
    else (FailJson ConnectFailed, s).

Definition _send_command (command : text) : M text :=
  fun d s =>
    if connected s then
      let log := sent s ++ [command] in
      (Returned (respond d log), {| connected := true; sent := log |})
    else (FailJson NotConnected, s).

Definition enter_candidate_mode : M bool :=
  connect ;;;
  output <- _send_command (lit "enter candidate") ;;
  if negb (mentions "candidate" output) then fail_json CandidateEntryFailed
  else ret true.

Definition exit_candidate_mode : M bool :=
  _send_command (lit "quit") ;;; ret true.

(** [lines[1:-1]] *)
Definition inner_lines (lines : list text) : list text := removelast (tl lines).

Definition not_banner (line : text) : bool := negb (banner line).

Definition execute_command (command : text) : M text :=
  connect ;;;
  output <- _send_command command ;;
  let output := _strip_ansi_codes output in
  let lines := split_lines output in
  let cleaned_lines := List.filter not_banner (inner_lines lines) in
  ret (strip (join_lines cleaned_lines)).

(** [not line.strip()] *)
Definition blank (line : text) : bool :=
  match strip line with [] => true | _ => false end.

(** [c.isalnum() or c in '+-{}[]'] *)
Definition significant (c : ascii) : bool :=
  isalnum c || existsb (ascii_eqb c) (lit "+-{}[]").

(** The body of [for line in lines] in [_clean_diff_output]: the line is
    appended unless one of the four tests skips it. *)
Definition content_line (line : text) : bool :=
  if banner line then false
  else if a_prompt line then false
  else if decide (strip line = lit "diff") then false
  else if blank line then false
  else true.

Definition _clean_diff_output (diff_output : text) : text :=
  let diff_output := _strip_ansi_codes diff_output in
  let lines := split_lines diff_output in
  let cleaned_lines := List.filter content_line lines in
  let result := strip (join_lines cleaned_lines) in
  match result with
  | [] => []
  | _ => if negb (existsb significant result) then [] else result
  end.

Record config_result := { changed : bool; commands : list text; diff : text }.

(** The body of [for line in lines] in [send_config]. *)
Fixpoint send_lines (lines : list text) (commands : list text) : M (list text) :=
  match lines with
  | [] => ret commands
  | line :: rest =>
      if negb (blank line) then
        output <- _send_command line ;;
        let commands := commands ++ [line] in
        if mentions "error" output || mentions "invalid" output then
          exit_candidate_mode ;;; fail_json (ConfigurationError output)
        else send_lines rest commands
      else send_lines rest commands
  end.

(** [line.strip().startswith(('+', '-')) and not line.strip().startswith(('+++', '---'))] *)
Definition diff_marker (line : text) : bool :=
  let l := strip line in
  (startswith (lit "+") l || startswith (lit "-") l)
  && negb (startswith (lit "+++") l || startswith (lit "---") l).

Definition names_domain (line : text) : bool :=
  existsb (fun keyword => contains (lit keyword) line)
    ["interface"; "network-instance"; "protocols"; "system"]%string.

(** The loop that sets [has_changes]; it leaves at the first line that
    sets the flag. *)
Definition has_changes (diff : text) : bool :=
  match diff with
  | [] => false
  | _ =>
      existsb (fun line =>
                 diff_marker line
                 || (names_domain line
                     && (contains (lit "+") diff || contains (lit "-") diff)))
              (split_lines diff)
  end.

Definition send_config (lines : list text) (commit : bool) : M config_result :=
  connect ;;;
  match lines with
  | [] => ret {| changed := false; commands := []; diff := [] |}
  | _ =>
      enter_candidate_mode ;;;
      commands <- send_lines lines [] ;;
      diff_output <- _send_command (lit "diff") ;;
      let diff := _clean_diff_output diff_output in
      changed <-
      (if has_changes diff then
         if commit then
           commit_output <- _send_command (lit "commit now") ;;
           if mentions "error" commit_output || mentions "failed" commit_output then
             exit_candidate_mode ;;; fail_json (CommitFailed commit_output)
           else ret true
         else ret true
       else
         _send_command (lit "discard now") ;;; ret false) ;;
      exit_candidate_mode ;;;
      ret {| changed := changed; commands := commands; diff := diff |}
  end.

Fixpoint send_all (lines : list text) : M unit :=
  match lines with
  | [] => ret tt
  | line :: rest =>
      if negb (blank line) then _send_command line ;;; send_all rest
      else send_all rest
  end.

Definition check_config_diff (lines : list text) : M text :=
  connect ;;;
  enter_candidate_mode ;;;
  send_all lines ;;;
  diff_output <- _send_command (lit "diff") ;;
  let cleaned_diff := _clean_diff_output diff_output in
  _send_command (lit "discard now") ;;;
  exit_candidate_mode ;;;
  ret cleaned_diff.

(** ** srlinux_compare: the drift comparison of [main] *)

Module Compare.

(** Python compares strings code point by code point. *)
Fixpoint text_leb (a b : text) : bool :=
  match a, b with
  | [], _ => true
  | _ :: _, [] => false
  | x :: a', y :: b' =>
      if (code x <? code y)%N then true
      else if (code y <? code x)%N then false
      else text_leb a' b'
  end.

Definition text_le (a b : text) : Prop := text_leb a b = true.

#[global] Instance text_le_dec : RelDecision text_le.
Proof. intros a b. unfold text_le. apply _. Defined.

(** [sorted(...)] on strings. *)
Definition sorted (l : list text) : list text := merge_sort text_le l.

(** [line and line.startswith('set ')], on a stripped line. *)
Definition is_statement (line : text) : bool :=
  match line with
  | [] => false
  | _ => startswith (lit "set ") line
  end.

(** The loops that fill [running_lines] and [intended_lines]. *)
Definition statement_set (lines : list text) : gset text :=
  list_to_set (List.filter is_statement (map strip lines)).

Record report := {
  changed : bool;
  has_drift : bool;
  diff : text;
  missing : list text;
  extra : list text;
  path : text;
  running_config : option text
}.

Definition nonempty (s : gset text) : bool := negb (bool_decide (s = ∅)).

(** Lines 191-221 of [main], given the text the device returned. *)
Definition compare (intended_config : list text) (config_path : text)
    (keep_running : bool) (running_output : text) : report :=
  let running_lines := statement_set (split_lines running_output) in
  let intended_lines := statement_set intended_config in
  let missing := intended_lines ∖ running_lines in
  let extra := running_lines ∖ intended_lines in
  let diff_lines :=
    map (fun line => lit "+ " ++ line) (sorted (elements missing))
    ++ map (fun line => lit "- " ++ line) (sorted (elements extra)) in
  {| changed := false;
     has_drift := nonempty missing || nonempty extra;
     diff := join_lines diff_lines;
     missing := sorted (elements missing);
     extra := sorted (elements extra);
     path := config_path;
     running_config := if keep_running then Some running_output else None |}.

(** The module parameters and the controller's files. *)
Record params := {
  intended_config : option (list text);
  intended_file : option text;
  config_path : text;
  output_format : string
}.

Record host := { has_paramiko : bool; file : text -> option text }.

(** [[line.strip() for line in f.readlines() if line.strip() and not line.startswith('#')]] *)
Definition load_intended (content : text) : list text :=
  map strip
    (List.filter (fun line => negb (blank line) && negb (startswith (lit "#") line))
                 (split_lines content)).

(** What an attribute of the connection object is, for a call with one
    string that expects a string back. *)
Inductive attribute :=
| Method (f : text -> M text)
| Other.

Definition pure_method (f : text -> text) : attribute :=
  Method (fun x => ret (f x)).

(** The attributes of an [SRLinuxConnection] instance: the ones
    [__init__] sets and the methods of the class. *)
Definition SRLinuxConnection : gmap string attribute :=
  list_to_map
    [ ("module", Other); ("client", Other); ("shell", Other);
      ("connected", Other); ("host", Other); ("port", Other);
      ("username", Other); ("password", Other); ("timeout", Other);
      ("connect", Other); ("disconnect", Other); ("_clear_buffer", Other);
      ("_strip_ansi_codes", pure_method _strip_ansi_codes);
      ("_send_command", Method _send_command);
      ("execute_command", Method execute_command);
      ("execute_commands", Other);
      ("enter_candidate_mode", Other); ("exit_candidate_mode", Other);
      ("get_config", Other); ("send_config", Other);
      ("_clean_diff_output", pure_method _clean_diff_output);
      ("check_config_diff", Other) ]%string.

Definition no_attribute (name : string) : text :=
  lit "'SRLinuxConnection' object has no attribute '" ++ lit name ++ lit "'".

(** [connection.<name>(arg)] *)
Definition call (name : string) (arg : text) : M text :=
  match SRLinuxConnection !! name with
  | Some (Method f) => f arg
  | Some Other => fun _ s => (Raised (lit "TypeError"), s)
  | None => fun _ s => (Raised (no_attribute name), s)
  end.

Definition disconnect : M unit :=
  fun _ s => (Returned tt, {| connected := false; sent := sent s |}).

(** [try: body except Exception as e: handler]; [fail_json] leaves
    through [SystemExit], which is no [Exception]. *)
Definition try_except {A} (body : M A) (handler : text -> M A) : M A :=
  fun d s =>
    match body d s with
    | (Raised e, s') => handler e d s'
    | r => r
    end.

Definition main (h : host) (p : params) : M report :=
  intended <-
    match intended_file p with
    | Some (_ :: _ as f) =>
        match file h f with
        | None => fail_json IntendedFileNotFound
        | Some content => ret (load_intended content)
        end
    | _ => ret (match intended_config p with Some l => l | None => [] end)
    end ;;
  (if has_paramiko h then ret tt else fail_json ParamikoMissing) ;;;
  try_except
    (running_output <- call "send_command" (lit "info flat " ++ config_path p) ;;
     let keep := existsb (String.eqb (output_format p)) ["json"; "yaml"]%string in
     let result := compare intended (config_path p) keep running_output in
     disconnect ;;;
     ret result)
    (fun e => disconnect ;;; fail_json (ComparisonFailed e)).

End Compare.

(** ** Well-formed terminal output

    The inputs of the normalizer's removal property: plain characters
    (printable ASCII, and the tab, line feed and carriage return the
    normalizer keeps), CSI sequences [ESC [ ... letter] with an optional
    [?] and a numeric parameter list, and OSC sequences [ESC ] ... BEL]
    with a printable body. *)

Inductive token :=
| Plain (c : ascii)
| Csi (private : bool) (params : text) (final : ascii)
| Osc (body : text).

Definition printable (c : ascii) : bool := between 32 126 c.

Definition plain_char (c : ascii) : bool :=
  printable c || ascii_eqb c (chr 9) || ascii_eqb c LF || ascii_eqb c (chr 13).

Definition well_formed (t : token) : bool :=
  match t with
  | Plain c => plain_char c
  | Csi _ params final => forallb is_param params && is_letter final
  | Osc body => forallb printable body
  end.

Definition render_token (t : token) : text :=
  match t with
  | Plain c => [c]
  | Csi private params final =>
      ESC :: "[" :: (if private then ["?"] else []) ++ params ++ [final]
  | Osc body => ESC :: "]" :: body ++ [BEL]
  end.

Definition render (ts : list token) : text := flat_map render_token ts.

Definition plain_text (ts : list token) : text :=
  flat_map (fun t => match t with Plain c => [c] | _ => [] end) ts.

(** ** [execute_command] as the specification words it

    The normalized output with exactly the first line removed and a
    trailing banner line removed, every other line left as it is. *)

Definition drop_trailing_banner (lines : list text) : list text :=
  match rev lines with
  | last :: _ => if banner last then removelast lines else lines
  | [] => []
  end.

Definition body_as_specified (output : text) : text :=
  join_lines (drop_trailing_banner (tl (split_lines (_strip_ansi_codes output)))).

(** ** Devices and responses used in the statements *)

(** The test of [send_config] on the response to a statement. *)
Definition rejected (output : text) : bool :=
  mentions "error" output || mentions "invalid" output.

(** Every statement of [stmts], sent in turn after [log], is answered
    without an error marker. *)
Fixpoint accepted (d : device) (log : list text) (stmts : list text) : bool :=
  match stmts with
  | [] => true
  | stmt :: rest =>
      negb (rejected (respond d (log ++ [stmt]))) && accepted d (log ++ [stmt]) rest
  end.

(** The lines [send_config] sends: those that are not blank. *)
Definition statements (lines : list text) : list text :=
  List.filter (fun line => negb (blank line)) lines.

(** A line that is the echo of [diff] or a bracketed prompt line. *)
Definition diff_echo_or_banner (line : text) : bool :=
  bool_decide (strip line = lit "diff") || banner line.

(** The lines [_clean_diff_output] keeps, before they are joined. *)
Definition residue (diff_output : text) : text :=
  join_lines (List.filter content_line (split_lines (_strip_ansi_codes diff_output))).

(** [c in '{}[]'] *)
Definition bracket (c : ascii) : bool := existsb (ascii_eqb c) (lit "{}[]").

Definition fresh : session := {| connected := false; sent := [] |}.

Definition last_sent (log : list text) : text :=
  match rev log with
  | command :: _ => command
  | [] => []
  end.

Definition candidate_banner : text :=
  lit "--{ candidate shared default }--[  ]--" ++ LF :: lit "A:admin@srl1# ".

(** A device that accepts candidate mode and rejects the statement
    [set / interface ethernet-1/1 bogus-opt enable]. *)
Definition rejecting_device : device :=
  {| reachable := true;
     respond := fun log =>
       let command := last_sent log in
       if decide (command = lit "enter candidate") then
         lit "enter candidate" ++ LF :: candidate_banner
       else if decide (command = lit "set / interface ethernet-1/1 bogus-opt enable") then
         lit "Error: invalid option"
       else command ++ LF :: candidate_banner |}.

(** A device that has nothing to report on [diff]. *)
Definition unchanged_device : device :=
  {| reachable := true;
     respond := fun log =>
       let command := last_sent log in
       if decide (command = lit "diff") then
         lit "diff" ++ LF :: lit "--{ candidate shared default }--[  ]--"
       else command ++ LF :: candidate_banner |}.

(** How many times [command] was sent on the shell of [s]. *)
Definition times_sent (command : text) (s : session) : nat :=
  length (List.filter (fun c => bool_decide (c = command)) (sent s)).

Definition bogus_statement : text := lit "set / interface ethernet-1/1 bogus-opt enable".

(** A device whose answer to a command ends in a line of content that
    closes with [>], which the prompt pattern takes for a prompt. *)
Definition terse_device : device :=
  {| reachable := true;
     respond := fun log =>
       last_sent log ++ LF :: lit "ethernet-1/1 is up" ++ LF :: lit "mtu 9232 <default>" |}.

(** An ordinary answer: echo, body, banner, prompt. *)
Definition verbose_device : device :=
  {| reachable := true;
     respond := fun log =>
       last_sent log ++ LF :: lit "  Hostname : srl1" ++ LF
         :: lit "--{ running }--[  ]--" ++ LF :: lit "  Version  : v23.10.1" ++ LF
         :: lit "--{ running }--[  ]--" ++ LF :: lit "A:admin@srl1# " |}.

Definition no_lf (line : text) : bool := forallb (fun c => negb (ascii_eqb c LF)) line.

(** The failures of [main] that come before the running configuration is
    asked for: the intended file is missing, or paramiko is. *)
Definition early_failure (h : Compare.host) (p : Compare.params) : option failure :=
  match Compare.intended_file p with
  | Some (_ :: _ as f) =>
      match Compare.file h f with
      | None => Some IntendedFileNotFound
      | Some _ => if Compare.has_paramiko h then None else Some ParamikoMissing
      end
  | _ => if Compare.has_paramiko h then None else Some ParamikoMissing
  end.

(** ** Notions used in the statements *)

Import Reader.

(** A pattern every match of which starts with [ESC]. *)
Definition esc_headed (m : text -> option nat) : Prop :=
  forall c s, ascii_eqb c ESC = false -> m (c :: s) = None.

(** A text without any character of the control class. *)
Definition clean (s : text) : Prop := Forall (fun c => is_control c = false) s.

(** A text without [ESC]. *)
Definition esc_free (s : text) : Prop := Forall (fun c => ascii_eqb c ESC = false) s.

(** The rendering of a token list once its CSI sequences are gone. *)
Definition without_csi (ts : list token) : text :=
  flat_map (fun t => match t with Csi _ _ _ => [] | _ => render_token t end) ts.

(** No pattern of the normalizer matches anywhere in a text. *)
Definition escape_free (s : text) : Prop :=
  forall (a b : text), s = a ++ b ->
    csi b = None /\ osc b = None /\ esc_shorthand b = None /\ charset b = None
    /\ status_report b = None /\ bracketed_paste b = None /\ control b = None.

(** A coloured prompt line with a title sequence. *)
Definition sample_output : list token :=
  [ Csi true (lit "25") "h"; Plain "o"; Plain "k"; Osc (lit "0;title");
    Csi false (lit "1;32") "m"; Plain " "; Plain "#" ].

(** A channel that delivers one chunk and then stays silent. *)
Definition silent_after_first : channel :=
  {| ready := fun k => match k with O => Some (lit "Loading config") | S _ => None end;
     lag := fun _ => 0%N |}.

(** A device that does not grant candidate mode. *)
Definition refusing_device : device :=
  {| reachable := true; respond := fun _ => lit "Permission denied" ++ LF :: lit "A:admin@srl1# " |}.

(** A device with a pending change: [diff] shows two added lines, and
    [commit now] succeeds. *)
Definition changing_device : device :=
  {| reachable := true;
     respond := fun log =>
       let command := last_sent log in
       if decide (command = lit "diff") then
         lit "diff" ++ LF :: lit "      interface ethernet-1/1 {" ++ LF
           :: lit "+         admin-state enable" ++ LF :: lit "      }" ++ LF
           :: candidate_banner
       else if decide (command = lit "commit now") then
         lit "commit now" ++ LF :: lit "All changes have been committed. Leaving candidate mode."
           ++ LF :: lit "A:admin@srl1# "
       else command ++ LF :: candidate_banner |}.

Definition admin_enable : text := lit "set / interface ethernet-1/1 admin-state enable".

(** How many line feeds a text holds. *)
Definition line_feeds (s : text) : nat :=
  length (List.filter (fun c => ascii_eqb c LF) s).

(** A pattern whose matches never cover a line feed. *)
Definition lf_safe (m : text -> option nat) : Prop :=
  forall s n, m s = Some n -> no_lf (firstn n s) = true.

(** ** SRLinuxConnection: [execute_commands] and [get_config] *)

(** The loop of [execute_commands]; [results] is the list built so far. *)
Fixpoint execute_each (commands : list text) (results : list text) : M (list text) :=
  match commands with
  | [] => ret results
  | command :: rest =>
      output <- execute_command command ;;
      execute_each rest (results ++ [output])
  end.

Definition execute_commands (commands : list text) : M (list text) :=
  execute_each commands [].

Definition get_config (source format : text) : M text :=
  connect ;;;
  enter_candidate_mode ;;;
  let command :=
    if decide (format = lit "flat") then lit "info flat"
    else if decide (format = lit "json") then lit "info json"
    else lit "info" in
  output <- _send_command command ;;
  exit_candidate_mode ;;;
  let output := _strip_ansi_codes output in
  let lines := split_lines output in
  let cleaned_lines :=
    List.filter (fun line => negb (blank line) && negb (banner line)) lines in
  ret (strip (join_lines cleaned_lines)).

(** What [execute_command] makes of a raw output. *)
Definition command_body (output : text) : text :=
  strip (join_lines (List.filter not_banner
                       (inner_lines (split_lines (_strip_ansi_codes output))))).

(** The bodies of the answers to [commands], sent in turn after [log]. *)
Fixpoint bodies (d : device) (log : list text) (commands : list text) : list text :=
  match commands with
  | [] => []
  | command :: rest =>
      command_body (respond d (log ++ [command])) :: bodies d (log ++ [command]) rest
  end.

(** The command [get_config] sends for a format. *)
Definition info_command (format : text) : text :=
  if decide (format = lit "flat") then lit "info flat"
  else if decide (format = lit "json") then lit "info json"
  else lit "info".

(** A device that answers every command with an error text and a prompt. *)
Definition erring_device : device :=
  {| reachable := true;
     respond := fun log =>
       last_sent log ++ LF :: lit "Error: invalid command" ++ LF
         :: lit "--{ running }--[  ]--" ++ LF :: lit "A:admin@srl1# " |}.

(** ** srlinux_validate: [validate_syntax] *)

Module Validate.

(** The two messages of a syntax error: the command does not start with
    [set ] or [delete ], or it has no path that starts with [/]. *)
Inductive reason := MustStartWithSetOrDelete | MustIncludePath.

Record syntax_error := { line : nat; command : text; message : reason }.

(** [any(cmd.startswith(prefix) for prefix in valid_prefixes)] *)
Definition has_prefix (cmd : text) : bool :=
  existsb (fun prefix => startswith (lit prefix) cmd) ["set "; "delete "]%string.

(** [\s+/] at the head of a text: white space, as much as there is and at
    least one character, then a slash. *)
Definition spaces_then_slash (rest : text) : bool :=
  match rest with
  | c :: _ => isspace c && startswith (lit "/") (lstrip rest)
  | [] => false
  end.

(** [re.search(r'^(set|delete)\s+/', cmd)] *)
Definition has_path (cmd : text) : bool :=
  (startswith (lit "set") cmd && spaces_then_slash (skipn 3 cmd))
  || (startswith (lit "delete") cmd && spaces_then_slash (skipn 6 cmd)).

(** The loop over [enumerate(commands)], from index [i]. *)
Fixpoint validate_from (i : nat) (commands : list text) : list syntax_error :=
  match commands with
  | [] => []
  | cmd :: rest =>
      let cmd := strip cmd in
      match cmd with
      | [] => validate_from (S i) rest
      | _ =>
          if startswith (lit "#") cmd then validate_from (S i) rest
          else if negb (has_prefix cmd) then
            {| line := i + 1; command := cmd; message := MustStartWithSetOrDelete |}
              :: validate_from (S i) rest
          else if negb (has_path cmd) then
            {| line := i + 1; command := cmd; message := MustIncludePath |}
              :: validate_from (S i) rest
          else validate_from (S i) rest
      end
  end.

Definition validate_syntax (commands : list text) : list syntax_error :=
  validate_from 0 commands.

End Validate.

(** A command the syntax check passes: once trimmed it is empty, or a
    comment, or a keyword [set] or [delete], one space, any further white
    space, and a path that starts with [/]. *)
Definition passes_syntax (cmd : text) : Prop :=
  strip cmd = []
  \/ startswith (lit "#") (strip cmd) = true
  \/ exists keyword spaces rest,
       (keyword = lit "set" \/ keyword = lit "delete")
       /\ forallb isspace spaces = true
       /\ strip cmd = keyword ++ " " :: spaces ++ "/" :: rest.

(** ** srlinux_validate: [main] *)

(** How a module run ends: [exit_json] with a result, or [fail_json] with
    a message. *)
Inductive module_exit (A : Type) :=
| ExitJson (result : A)
| FailJsonMsg (message : text).
Arguments ExitJson {A} result.
Arguments FailJsonMsg {A} message.

(** The end of a module run whose body is [m], a body that lets no
    exception out. *)
Definition finish {A} (m : M A) : device -> session -> module_exit A * session :=
  fun d s =>
    match m d s with
    | (Returned a, s') => (ExitJson a, s')
    | (Raised e, s') => (FailJsonMsg e, s')
    | (FailJson f, s') => (FailJsonMsg (msg f), s')
    end.

Module ValidateMain.

Record params := {
  config : option (list text);
  config_file : option text;
  check_syntax : bool;
  check_references : bool
}.

Inductive error :=
| Syntax (e : Validate.syntax_error)
| Validation (command message : text).

Inductive warning :=
| Reference (command message : text)
| Connection (message : text).

Record result := {
  changed : bool;
  valid : bool;
  errors : list error;
  warnings : list warning;
  total_commands : nat;
  valid_commands : Z
}.

(** [[c for c in config if c.strip() and not c.strip().startswith('#')]] *)
Definition actual_commands (config : list text) : list text :=
  List.filter (fun c => negb (blank c) && negb (startswith (lit "#") (strip c))) config.

(** The loop [for cmd in commands] of the reference validation; its own
    [try] catches every exception of the call. *)
Fixpoint check_each (commands : list text) (errors : list error)
    (warnings : list warning) : M (list error * list warning) :=
  match commands with
  | [] => ret (errors, warnings)
  | cmd :: rest =>
      raised <-
        Compare.try_except
          (Compare.call "send_command" cmd ;;; ret None)
          (fun e => ret (Some e)) ;;
      match raised with
      | None => check_each rest errors warnings
      | Some error_msg =>
          if mentions "not found" error_msg || mentions "does not exist" error_msg
          then check_each rest errors (warnings ++ [Reference cmd error_msg])
          else if mentions "invalid" error_msg || mentions "error" error_msg
          then check_each rest (errors ++ [Validation cmd error_msg]) warnings
          else check_each rest errors warnings
      end
  end.

(** The reference validation.  The loop lets no exception out, so the
    outer [except] is reached from the call that sends [discard] only. *)
Definition check_references_on_device (h : Compare.host) (commands : list text)
    (errors : list error) : M (list error * list warning) :=
  (if Compare.has_paramiko h then ret tt else fail_json ParamikoMissing) ;;;
  found <- check_each commands errors [] ;;
  Compare.try_except
    (Compare.call "send_command" (lit "discard") ;;;
     Compare.disconnect ;;;
     ret found)
    (fun e =>
       Compare.disconnect ;;;
       ret (fst found,
            snd found ++ [Connection (lit "Could not validate references: " ++ e)])).

Definition summary (commands : list text) (errors : list error)
    (warnings : list warning) : result :=
  {| changed := false;
     valid := Nat.eqb (length errors) 0;
     errors := errors;
     warnings := warnings;
     total_commands := length commands;
     valid_commands := (Z.of_nat (length commands) - Z.of_nat (length errors))%Z |}.

Definition main (h : Compare.host) (p : params)
    : device -> session -> module_exit result * session :=
  fun d s =>
    let loaded :=
      match config_file p with
      | Some (_ :: _ as f) =>
          match Compare.file h f with
          | None => None
          | Some content => Some (map strip (split_lines content))
          end
      | _ => Some (match config p with Some l => l | None => [] end)
      end in
    match loaded with
    | None =>
        (FailJsonMsg (lit "Config file not found: "
                        ++ match config_file p with Some f => f | None => [] end), s)
    | Some config =>
        let commands := actual_commands config in
        let syntax_errors :=
          if check_syntax p then map Syntax (Validate.validate_syntax commands) else [] in
        finish
          (found <-
             (if check_references p && negb (Nat.eqb (length commands) 0)
              then check_references_on_device h commands syntax_errors
              else ret (syntax_errors, [])) ;;
           ret (summary commands (fst found) (snd found)))
          d s
    end.

End ValidateMain.


(** ** srlinux_config: [main] *)

Module ConfigMain.

Record params := {
  lines : option (list text);
  src : option text;
  backup : bool;
  commit : bool
}.

(** [[line.strip() for line in f.readlines() if line.strip()]] *)
Definition file_lines (content : text) : list text :=
  map strip (List.filter (fun line => negb (blank line)) (split_lines content)).

(** The quotation mark of the message about missing lines. *)
Definition quote : ascii := chr 34.

Definition no_lines_message : text :=
  lit "No configuration lines provided. Use " ++ quote :: lit "lines" ++ quote
    :: lit " or " ++ quote :: lit "src" ++ quote :: lit " parameter.".

(** The body of [main] once the lines are known.  No method of the
    connection raises an exception in this embedding, so the [except]
    branch only passes its message on. *)
Definition apply_lines (h : Compare.host) (check_mode : bool) (commit : bool)
    (lines : list text) : M config_result :=
  (if Compare.has_paramiko h then ret tt else fail_json ParamikoMissing) ;;;
  Compare.try_except
    (result <-
       (if check_mode then
          diff <- check_config_diff lines ;;
          ret {| changed := negb (blank diff); commands := lines; diff := diff |}
        else send_config lines commit) ;;
     Compare.disconnect ;;;
     ret result)
    (fun e =>
       Compare.disconnect ;;;
       (fun _ s => (Raised (lit "Configuration failed: " ++ e), s))).

Definition main (h : Compare.host) (check_mode : bool) (p : params)
    : device -> session -> module_exit config_result * session :=
  fun d s =>
    let lines0 := match lines p with Some l => l | None => [] end in
    let loaded :=
      match src p with
      | Some (_ :: _ as f) =>
          match Compare.file h f with
          | None => None
          | Some content => Some (lines0 ++ file_lines content)
          end
      | _ => Some lines0
      end in
    match loaded with
    | None =>
        (FailJsonMsg (lit "Source file not found: "
                        ++ match src p with Some f => f | None => [] end), s)
    | Some [] => (FailJsonMsg no_lines_message, s)
    | Some lines => finish (apply_lines h check_mode (commit p) lines) d s
    end.

End ConfigMain.

(** The lines [main] of srlinux_config applies, when the source file can
    be read: those of [lines], then those of the file. *)
Definition config_lines (h : Compare.host) (p : ConfigMain.params) : option (list text) :=
  let lines0 := match ConfigMain.lines p with Some l => l | None => [] end in
  match ConfigMain.src p with
  | Some (_ :: _ as f) =>
      match Compare.file h f with
      | None => None
      | Some content => Some (lines0 ++ ConfigMain.file_lines content)
      end
  | _ => Some lines0
  end.

(** A device whose [diff] shows a line without any sign. *)
Definition unsigned_diff_device : device :=
  {| reachable := true;
     respond := fun log =>
       let command := last_sent log in
       if decide (command = lit "diff") then
         lit "diff" ++ LF :: lit "    description uplink" ++ LF :: candidate_banner
       else command ++ LF :: candidate_banner |}.

Definition with_paramiko : Compare.host :=
  {| Compare.has_paramiko := true; Compare.file := fun _ => None |}.

Definition description_only : ConfigMain.params :=
  {| ConfigMain.lines := Some [lit "set / interface ethernet-1/1 description uplink"];
     ConfigMain.src := None;
     ConfigMain.backup := false;
     ConfigMain.commit := true |}.

(** ** srlinux_resource: [build_commands] *)

Module Resource.

(** A value of the [config] dictionary: a boolean, or anything else, given
    by the text an f-string makes of it. *)
Inductive value :=
| Bool (b : bool)
| Other (rendered : text).

(** [f'{value}'] *)
Definition format (v : value) : text :=
  match v with
  | Bool true => lit "True"
  | Bool false => lit "False"
  | Other rendered => rendered
  end.

(** [s.replace(old, new)] for a non-empty [old]: left to right, every
    occurrence that does not overlap an earlier one. *)
Fixpoint replace_from (old new : text) (skip : nat) (s : text) : text :=
  match s with
  | [] => []
  | c :: s' =>
      match skip with
      | S k => replace_from old new k s'
      | O =>
          if startswith old s then new ++ replace_from old new (length old - 1) s'
          else c :: replace_from old new 0 s'
      end
  end.

Definition replace (old new s : text) : text := replace_from old new 0 s.

Definition RESOURCE_PATHS : gmap text text :=
  list_to_map
    [ (lit "interface", lit "/interface");
      (lit "subinterface", lit "/interface/{parent}/subinterface");
      (lit "network_instance", lit "/network-instance");
      (lit "bgp_neighbor", lit "/network-instance/{ni}/protocols/bgp/neighbor");
      (lit "bgp_group", lit "/network-instance/{ni}/protocols/bgp/group");
      (lit "static_route", lit "/network-instance/{ni}/static-routes/route");
      (lit "acl", lit "/acl");
      (lit "routing_policy", lit "/routing-policy");
      (lit "user", lit "/system/aaa/authentication/user") ].

(** The resource types the module accepts. *)
Definition resource_types : list text :=
  [ lit "interface"; lit "subinterface"; lit "network_instance"; lit "bgp_neighbor";
    lit "bgp_group"; lit "static_route"; lit "acl"; lit "routing_policy"; lit "user" ].

(** [key.replace('_', '-')] *)
Definition cmd_key (key : text) : text := replace (lit "_") (lit "-") key.

(** One command per item of [config]: [prefix], the key, the value. *)
Definition set_each (prefix : text) (render : value -> text)
    (config : list (text * value)) : list text :=
  map (fun item => prefix ++ " " :: cmd_key (fst item) ++ " " :: render (snd item)) config.

(** The value of an interface command: booleans in lower case. *)
Definition interface_value (v : value) : text :=
  match v with
  | Bool true => lit "true"
  | Bool false => lit "false"
  | Other rendered => rendered
  end.

Definition build_commands (resource_type name : text) (config : list (text * value))
    (network_instance state : text) : list text :=
  let base_path :=
    match RESOURCE_PATHS !! resource_type with
    | Some path => path
    | None => []
    end in
  let base_path := replace (lit "{ni}") network_instance base_path in
  if decide (state = lit "absent") then
    if decide (resource_type = lit "interface") then
      [lit "delete / interface " ++ name]
    else if decide (resource_type = lit "network_instance") then
      [lit "delete / network-instance " ++ name]
    else if decide (resource_type = lit "bgp_neighbor") then
      [lit "delete / network-instance " ++ network_instance
         ++ lit " protocols bgp neighbor " ++ name]
    else if decide (resource_type = lit "static_route") then
      [lit "delete / network-instance " ++ network_instance
         ++ lit " static-routes route " ++ name]
    else
      [lit "delete " ++ base_path ++ " " :: name]
  else
    if decide (resource_type = lit "interface") then
      set_each (lit "set / interface " ++ name) interface_value config
    else if decide (resource_type = lit "network_instance") then
      (lit "set / network-instance " ++ name)
        :: set_each (lit "set / network-instance " ++ name) format config
    else if decide (resource_type = lit "bgp_neighbor") then
      set_each (lit "set / network-instance " ++ network_instance
                  ++ lit " protocols bgp neighbor " ++ name) format config
    else if decide (resource_type = lit "static_route") then
      set_each (lit "set / network-instance " ++ network_instance
                  ++ lit " static-routes route " ++ name) format config
    else
      set_each (lit "set " ++ base_path ++ " " :: name) format config.

End Resource.

(** * Properties *)

(** ** Characters *)

Ltac by_cases_on_char c :=
  destruct c as [[] [] [] [] [] [] [] []]; vm_compute; try reflexivity; try discriminate;
  try congruence.

Lemma ascii_eqb_eq (a b : ascii) : ascii_eqb a b = true <-> a = b.
Proof. unfold ascii_eqb. apply Ascii.eqb_eq. Qed.

Lemma ascii_eqb_refl (a : ascii) : ascii_eqb a a = true.
Proof. apply ascii_eqb_eq. reflexivity. Qed.

Lemma not_control_not_ESC (c : ascii) : is_control c = false -> ascii_eqb c ESC = false.
Proof. by_cases_on_char c. Qed.

Lemma plain_not_control (c : ascii) : plain_char c = true -> is_control c = false.
Proof. by_cases_on_char c. Qed.

Lemma printable_plain (c : ascii) : printable c = true -> plain_char c = true.
Proof. unfold plain_char. intros ->. reflexivity. Qed.

Lemma printable_not_BEL (c : ascii) : printable c = true -> ascii_eqb c BEL = false.
Proof. by_cases_on_char c. Qed.

Lemma printable_not_LF (c : ascii) : printable c = true -> ascii_eqb c LF = false.
Proof. by_cases_on_char c. Qed.

Lemma param_not_letter (c : ascii) : is_param c = true -> is_letter c = false.
Proof. by_cases_on_char c. Qed.

Lemma param_not_control (c : ascii) : is_param c = true -> is_control c = false.
Proof. by_cases_on_char c. Qed.

Lemma letter_not_param (c : ascii) : is_letter c = true -> is_param c = false.
Proof. by_cases_on_char c. Qed.

(** ** The substitution engine *)

Lemma re_sub_from_nil m k : re_sub_from m k [] = [].
Proof. destruct k; reflexivity. Qed.

Lemma re_sub_from_skip m (t r : text) :
  re_sub_from m (length t) (t ++ r) = re_sub_from m 0 r.
Proof. induction t as [|c t IH]; simpl; auto. Qed.

Lemma re_sub_match m (c : ascii) (t r : text) :
  m (c :: t ++ r) = Some (S (length t)) ->
  re_sub m (c :: t ++ r) = re_sub m r.
Proof. unfold re_sub. simpl. intros ->. apply re_sub_from_skip. Qed.

Lemma re_sub_no_match m (c : ascii) (r : text) :
  m (c :: r) = None -> re_sub m (c :: r) = c :: re_sub m r.
Proof. unfold re_sub. simpl. intros ->. reflexivity. Qed.

Lemma clean_esc_free (s : text) : clean s -> esc_free s.
Proof.
  unfold clean, esc_free. intros H. eapply List.Forall_impl; [|exact H].
  apply not_control_not_ESC.
Qed.

Lemma re_sub_keep m (t r : text) :
  esc_headed m -> esc_free t ->
  re_sub m (t ++ r) = t ++ re_sub m r.
Proof.
  intros Hm Ht. unfold re_sub. induction Ht as [|c t Hc Ht IH]; simpl; auto.
  rewrite (Hm c (t ++ r) Hc). f_equal. exact IH.
Qed.

Lemma re_sub_clean m (s : text) : esc_headed m -> clean s -> re_sub m s = s.
Proof.
  intros Hm Hs. rewrite <- (app_nil_r s) at 1.
  rewrite re_sub_keep by auto using clean_esc_free.
  unfold re_sub. simpl. apply app_nil_r.
Qed.

Lemma re_sub_control_filter (s : text) :
  re_sub control s = List.filter (fun c => negb (is_control c)) s.
Proof.
  unfold re_sub. induction s as [|c s IH]; simpl; auto.
  destruct (is_control c); simpl; rewrite IH; reflexivity.
Qed.

Lemma re_sub_control_clean (s : text) : clean (re_sub control s).
Proof.
  rewrite re_sub_control_filter. unfold clean. apply List.Forall_forall.
  intros c Hc. apply List.filter_In in Hc. destruct Hc as [_ Hc].
  destruct (is_control c); [discriminate | reflexivity].
Qed.

Lemma re_sub_control_id (s : text) : clean s -> re_sub control s = s.
Proof.
  rewrite re_sub_control_filter. induction 1 as [|c s Hc Hs IH]; simpl; auto.
  rewrite Hc. simpl. f_equal. exact IH.
Qed.

Lemma csi_esc_headed : esc_headed csi.
Proof.
  intros c s Hc. unfold csi. destruct s as [|a [|b s]]; try reflexivity;
  repeat match goal with |- context [match ?x with _ => _ end] => destruct x end;
  try reflexivity; congruence.
Qed.

Ltac split_matches :=
  repeat match goal with
         | |- context [match ?x with _ => _ end] => destruct x
         end;
  try reflexivity; try congruence.

Lemma osc_esc_headed : esc_headed osc.
Proof. intros c s Hc. unfold osc. destruct s as [|a s]; split_matches. Qed.

Lemma esc_shorthand_esc_headed : esc_headed esc_shorthand.
Proof.
  intros c s Hc. unfold esc_shorthand. destruct s as [|a s]; [reflexivity|].
  rewrite Hc. reflexivity.
Qed.

Lemma charset_esc_headed : esc_headed charset.
Proof. intros c s Hc. unfold charset. destruct s as [|a s]; split_matches. Qed.

Lemma esc_literal_esc_headed p : esc_headed (esc_literal p).
Proof.
  intros c s Hc. unfold esc_literal.
  change (startswith (ESC :: lit p) (c :: s))
    with (ascii_eqb ESC c && startswith (lit p) s).
  assert (H : ascii_eqb ESC c = false)
    by (unfold ascii_eqb in *; rewrite Ascii.eqb_sym; exact Hc).
  rewrite H. reflexivity.
Qed.

Lemma bracketed_paste_esc_headed : esc_headed bracketed_paste.
Proof.
  intros c s Hc. unfold bracketed_paste.
  rewrite !(esc_literal_esc_headed _ c s Hc). reflexivity.
Qed.

(** On text without control characters the normalizer changes nothing. *)
Lemma strip_ansi_codes_clean (s : text) : clean s -> _strip_ansi_codes s = s.
Proof.
  intros Hs. unfold _strip_ansi_codes. cbv zeta.
  rewrite (re_sub_clean csi s csi_esc_headed Hs).
  rewrite (re_sub_clean osc s osc_esc_headed Hs).
  rewrite (re_sub_clean esc_shorthand s esc_shorthand_esc_headed Hs).
  rewrite (re_sub_clean charset s charset_esc_headed Hs).
  rewrite (re_sub_clean status_report s (esc_literal_esc_headed _) Hs).
  rewrite (re_sub_clean bracketed_paste s bracketed_paste_esc_headed Hs).
  apply re_sub_control_id, Hs.
Qed.

Lemma strip_ansi_codes_is_clean (s : text) : clean (_strip_ansi_codes s).
Proof. unfold _strip_ansi_codes. cbv zeta. apply re_sub_control_clean. Qed.

(** ** Well-formed input *)

Lemma params_then_letter_run (ps : text) (final : ascii) (r : text) :
  forallb is_param ps = true -> is_letter final = true ->
  params_then_letter (ps ++ final :: r) = Some (S (length ps)).
Proof.
  intros Hps Hf. induction ps as [|c ps IH]; simpl in *.
  - rewrite (letter_not_param _ Hf), Hf. reflexivity.
  - apply andb_true_iff in Hps. destruct Hps as [Hc Hps].
    rewrite Hc, (IH Hps). reflexivity.
Qed.

Lemma until_bel_run (body r : text) :
  forallb printable body = true ->
  until_bel (body ++ BEL :: r) = Some (S (length body)).
Proof.
  intros Hb. induction body as [|c body IH]; simpl in *.
  - reflexivity.
  - apply andb_true_iff in Hb. destruct Hb as [Hc Hb].
    rewrite (printable_not_BEL _ Hc), (printable_not_LF _ Hc), (IH Hb). reflexivity.
Qed.

Lemma csi_matches_token private ps final r :
  forallb is_param ps = true -> is_letter final = true ->
  csi (render_token (Csi private ps final) ++ r)
  = Some (length (render_token (Csi private ps final))).
Proof.
  intros Hps Hf. destruct private; simpl.
  - rewrite <- app_assoc. simpl. rewrite params_then_letter_run by assumption.
    simpl. rewrite length_app. simpl. do 3 f_equal. lia.
  - rewrite <- app_assoc. simpl.
    destruct ps as [|c ps]; simpl.
    + assert (Hq : final <> "?") by (intros ->; discriminate).
      rewrite (letter_not_param _ Hf), Hf.
      destruct final as [[] [] [] [] [] [] [] []]; try reflexivity; congruence.
    + simpl in Hps. apply andb_true_iff in Hps. destruct Hps as [Hc Hps].
      assert (Hq : c <> "?") by (intros ->; discriminate).
      rewrite Hc, params_then_letter_run by assumption.
      simpl. rewrite length_app. simpl.
      replace (length ps + 1) with (S (length ps)) by lia.
      destruct c as [[] [] [] [] [] [] [] []]; try reflexivity; congruence.
Qed.

Lemma printable_esc_free (body : text) : forallb printable body = true -> esc_free body.
Proof.
  intros H. apply List.Forall_forall. intros c Hc.
  apply not_control_not_ESC, plain_not_control, printable_plain.
  exact (proj1 (List.forallb_forall _ _) H c Hc).
Qed.

Lemma plain_text_clean (ts : list token) :
  forallb well_formed ts = true -> clean (plain_text ts).
Proof.
  induction ts as [|t ts IH]; simpl; intros H; [constructor|].
  apply andb_true_iff in H. destruct H as [Ht Hts].
  unfold clean in *. destruct t; simpl; auto.
  constructor; auto using plain_not_control.
Qed.

Lemma csi_removed (ts : list token) :
  forallb well_formed ts = true -> re_sub csi (render ts) = without_csi ts.
Proof.
  induction ts as [|t ts IH]; simpl; intros H; [reflexivity|].
  apply andb_true_iff in H. destruct H as [Ht Hts]. specialize (IH Hts).
  destruct t as [c | private ps final | body]; simpl in Ht.
  - change (render_token (Plain c) ++ render ts) with ([c] ++ render ts).
    rewrite re_sub_keep, IH; [reflexivity | exact csi_esc_headed |].
    constructor; [|constructor]. auto using not_control_not_ESC, plain_not_control.
  - apply andb_true_iff in Ht. destruct Ht as [Hps Hf].
    pose proof (csi_matches_token private ps final (render ts) Hps Hf) as Hm.
    simpl in Hm. simpl.
    set (t := "[" :: (if private then ["?"] else []) ++ ps ++ [final]) in *.
    change (re_sub csi (ESC :: t ++ render ts) = without_csi ts).
    rewrite re_sub_match; [exact IH | exact Hm].
  - change (render_token (Osc body) ++ render ts)
      with (ESC :: ("]" :: body ++ [BEL]) ++ render ts).
    rewrite re_sub_no_match by reflexivity.
    rewrite re_sub_keep, IH; [reflexivity | exact csi_esc_headed |].
    constructor; [reflexivity|].
    apply List.Forall_app. split; [apply printable_esc_free, Ht|].
    constructor; [reflexivity | constructor].
Qed.

Lemma osc_removed (ts : list token) :
  forallb well_formed ts = true -> re_sub osc (without_csi ts) = plain_text ts.
Proof.
  induction ts as [|t ts IH]; simpl; intros H; [reflexivity|].
  apply andb_true_iff in H. destruct H as [Ht Hts]. specialize (IH Hts).
  destruct t as [c | private ps final | body]; simpl in Ht.
  - change (re_sub osc ([c] ++ without_csi ts) = [c] ++ plain_text ts).
    rewrite re_sub_keep, IH; [reflexivity | exact osc_esc_headed |].
    constructor; [|constructor]. auto using not_control_not_ESC, plain_not_control.
  - exact IH.
  - change (re_sub osc (ESC :: ("]" :: body ++ [BEL]) ++ without_csi ts) = plain_text ts).
    rewrite re_sub_match; [exact IH|].
    simpl. rewrite <- app_assoc. simpl. rewrite until_bel_run by exact Ht.
    simpl. rewrite length_app. simpl. do 3 f_equal. lia.
Qed.

Lemma strip_ansi_codes_render (ts : list token) :
  forallb well_formed ts = true -> _strip_ansi_codes (render ts) = plain_text ts.
Proof.
  intros H. pose proof (plain_text_clean ts H) as Hc.
  unfold _strip_ansi_codes. cbv zeta.
  rewrite (csi_removed ts H), (osc_removed ts H).
  rewrite (re_sub_clean esc_shorthand _ esc_shorthand_esc_headed Hc).
  rewrite (re_sub_clean charset _ charset_esc_headed Hc).
  rewrite (re_sub_clean status_report _ (esc_literal_esc_headed _) Hc).
  rewrite (re_sub_clean bracketed_paste _ bracketed_paste_esc_headed Hc).
  apply re_sub_control_id, Hc.
Qed.

Lemma clean_escape_free (s : text) : clean s -> escape_free s.
Proof.
  intros Hs a b ->. apply List.Forall_app in Hs. destruct Hs as [_ Hb].
  destruct b as [|c b].
  - repeat split; reflexivity.
  - inversion Hb as [|? ? Hc _]; subst.
    pose proof (not_control_not_ESC c Hc) as He.
    repeat split.
    + apply csi_esc_headed, He.
    + apply osc_esc_headed, He.
    + apply esc_shorthand_esc_headed, He.
    + apply charset_esc_headed, He.
    + apply (esc_literal_esc_headed "[6n"), He.
    + apply bracketed_paste_esc_headed, He.
    + simpl. rewrite Hc. reflexivity.
Qed.

(** C3.  The output normalizer [_strip_ansi_codes] is a total function on
    texts and is idempotent: normalizing a normalized text changes nothing.
    On an input made only of plain characters and well-formed CSI and OSC
    sequences it returns exactly the plain characters, and no escape form
    the normalizer recognizes is left anywhere in the result. *)
Theorem strip_ansi_codes_idempotent_and_removes_escapes :
  (forall x : text, exists y : text,
      _strip_ansi_codes x = y /\ _strip_ansi_codes y = y)
  /\ (forall ts : list token,
         forallb well_formed ts = true ->
         _strip_ansi_codes (render ts) = plain_text ts
         /\ escape_free (_strip_ansi_codes (render ts))).
Proof.
  split.
  - intros x. exists (_strip_ansi_codes x). split; [reflexivity|].
    apply strip_ansi_codes_clean, strip_ansi_codes_is_clean.
  - intros ts H. split; [exact (strip_ansi_codes_render ts H)|].
    apply clean_escape_free, strip_ansi_codes_is_clean.
Qed.

Lemma strip_ansi_codes_idempotent_and_removes_escapes_witness :
  forallb well_formed sample_output = true
  /\ _strip_ansi_codes (render sample_output) = lit "ok #".
Proof.
  split; [reflexivity|].
  exact (proj1 (proj2 strip_ansi_codes_idempotent_and_removes_escapes
                  sample_output eq_refl)).
Defined.

(** ** The prompt-synchronized read *)

Lemma elapsed_at_step (ch : channel) (k : nat) :
  (elapsed_at ch k + poll_interval <= elapsed_at ch (S k))%N.
Proof. simpl. lia. Qed.

Lemma read_loop_deadline (ch : channel) :
  (forall n, prompt (_strip_ansi_codes (accumulated ch n)) = false) ->
  forall fuel k,
    0 < fuel ->
    (max_wait <= elapsed_at ch k + poll_interval * N.of_nat (fuel - 1))%N ->
    exists n, k <= n <= k + (fuel - 1)
      /\ read_loop fuel ch k (elapsed_at ch k) (accumulated ch k)
         = Some (accumulated ch n)
      /\ (max_wait <= elapsed_at ch n)%N
      /\ (forall j, k <= j < n -> (elapsed_at ch j < max_wait)%N).
Proof.
  intros Hnever. induction fuel as [|fuel IH]; intros k Hpos Hbudget; [lia|].
  simpl. destruct (N.ltb_spec (elapsed_at ch k) max_wait) as [Hlt | Hge].
  - assert (Hfuel : 0 < fuel).
    { destruct fuel; [simpl in Hbudget; lia | lia]. }
    assert (Hnext : (max_wait <= elapsed_at ch (S k)
                               + poll_interval * N.of_nat (fuel - 1))%N).
    { pose proof (elapsed_at_step ch k). simpl in Hbudget.
      replace (fuel - 0) with (S (fuel - 1)) in Hbudget by lia.
      rewrite Nat2N.inj_succ in Hbudget. lia. }
    destruct (IH (S k) Hfuel Hnext) as (n & Hn & Hread & Hexp & Hbefore).
    assert (Hacc : read_loop fuel ch (S k)
                     (elapsed_at ch k + poll_interval + lag ch k)
                     (accumulated ch (S k)) = Some (accumulated ch n))
      by exact Hread.
    exists n. split; [lia|]. split; [|split; [exact Hexp|]].
    + pose proof (Hnever (S k)) as Hp. simpl in Hp, Hacc.
      destruct (ready ch k) as [chunk|].
      * rewrite Hp. exact Hacc.
      * rewrite app_nil_r in Hacc. exact Hacc.
    + intros j Hj. destruct (Nat.eq_dec j k) as [->|Hne]; [exact Hlt|].
      apply Hbefore. lia.
  - exists k. split; [lia|]. split; [reflexivity|]. split; [exact Hge|].
    intros j Hj. lia.
Qed.

Lemma read_loop_more_fuel (ch : channel) (fuel : nat) :
  forall k elapsed output r,
    read_loop fuel ch k elapsed output = Some r ->
    forall fuel', fuel <= fuel' -> read_loop fuel' ch k elapsed output = Some r.
Proof.
  induction fuel as [|fuel IH]; intros k elapsed output r H fuel' Hle; [discriminate|].
  destruct fuel' as [|fuel']; [lia|]. simpl in *.
  destruct (elapsed <? max_wait)%N; [|exact H].
  destruct (ready ch k) as [chunk|].
  - destruct (prompt (_strip_ansi_codes (output ++ chunk))); [exact H|].
    apply (IH _ _ _ _ H). lia.
  - apply (IH _ _ _ _ H). lia.
Qed.

(** C4.  When the normalized accumulated text never matches the prompt
    pattern, the read of [_send_command] stops at the first test of the
    clock that finds the 30 s of [max_wait] elapsed, which happens within
    300 iterations, and returns the buffer accumulated until then; it does
    not fail.  Any fuel of at least 301 iterations gives this result. *)
Theorem send_command_deadline_returns_partial (ch : channel) (fuel : nat) :
  301 <= fuel ->
  (forall n, prompt (_strip_ansi_codes (accumulated ch n)) = false) ->
  exists n, n <= 300
    /\ collect_output fuel ch true = Some (accumulated ch n)
    /\ (max_wait <= elapsed_at ch n)%N
    /\ (forall j, j < n -> (elapsed_at ch j < max_wait)%N).
Proof.
  intros Hfuel Hnever.
  destruct (read_loop_deadline ch Hnever 301 0) as (n & Hn & Hread & Hexp & Hbefore).
  - lia.
  - vm_compute. discriminate.
  - exists n. split; [lia|]. split; [|split; [exact Hexp|]].
    + unfold collect_output. apply (read_loop_more_fuel ch 301); assumption.
    + intros j Hj. apply Hbefore. lia.
Qed.

Lemma send_command_deadline_returns_partial_witness :
  exists n, n <= 300
    /\ collect_output 301 silent_after_first true
       = Some (accumulated silent_after_first n)
    /\ (max_wait <= elapsed_at silent_after_first n)%N
    /\ (forall j, j < n -> (elapsed_at silent_after_first j < max_wait)%N).
Proof.
  apply (send_command_deadline_returns_partial silent_after_first 301); [lia|].
  assert (H : forall n, accumulated silent_after_first (S n) = lit "Loading config").
  { induction n as [|n IH]; [reflexivity|].
    change (accumulated silent_after_first (S (S n)))
      with (accumulated silent_after_first (S n) ++ []).
    rewrite app_nil_r. exact IH. }
  intros [|n]; [reflexivity|]. rewrite H. reflexivity.
Defined.

(** ** Sessions and candidate transactions *)

Lemma connect_ok (d : device) (s : session) :
  connected s || reachable d = true ->
  connect d s = (Returned true, {| connected := true; sent := sent s |}).
Proof.
  unfold connect. destruct s as [[] log]; simpl; [reflexivity|].
  intros ->. reflexivity.
Qed.

Lemma send_command_connected (command : text) (d : device) (log : list text) :
  _send_command command d {| connected := true; sent := log |}
  = (Returned (respond d (log ++ [command])),
     {| connected := true; sent := log ++ [command] |}).
Proof. reflexivity. Qed.

Lemma send_lines_accepted (d : device) (lines : list text) :
  forall (cmds log : list text),
    accepted d log (statements lines) = true ->
    send_lines lines cmds d {| connected := true; sent := log |}
    = (Returned (cmds ++ statements lines),
       {| connected := true; sent := log ++ statements lines |}).
Proof.
  induction lines as [|line lines IH]; intros cmds log Hacc; simpl.
  - unfold ret. rewrite !app_nil_r. reflexivity.
  - unfold statements in *. simpl in *. destruct (blank line); simpl in *.
    + apply IH, Hacc.
    + apply andb_true_iff in Hacc. destruct Hacc as [Hok Hacc].
      unfold bind at 1. rewrite send_command_connected.
      unfold rejected in Hok. apply negb_true_iff in Hok. rewrite Hok.
      rewrite (IH _ _ Hacc). rewrite <- !app_assoc. reflexivity.
Qed.

Lemma noise_filtered (lines : list text) :
  forallb diff_echo_or_banner lines = true -> List.filter content_line lines = [].
Proof.
  induction lines as [|l lines IH]; simpl; intros H; [reflexivity|].
  apply andb_true_iff in H. destruct H as [Hl H].
  unfold content_line, diff_echo_or_banner in *.
  destruct (banner l); [exact (IH H)|].
  destruct (a_prompt l); [exact (IH H)|].
  rewrite orb_false_r in Hl. apply bool_decide_eq_true in Hl.
  destruct (decide (strip l = lit "diff")); [exact (IH H) | contradiction].
Qed.

Lemma clean_diff_output_noise (diff_output : text) :
  forallb diff_echo_or_banner (split_lines (_strip_ansi_codes diff_output)) = true ->
  _clean_diff_output diff_output = [].
Proof.
  intros H. unfold _clean_diff_output. cbv zeta. rewrite (noise_filtered _ H).
  reflexivity.
Qed.

(** C10.  [send_config] with no statement returns
    [{changed: false, commands: [], diff: ''}] right after [connect]: the
    shell receives nothing, neither [enter candidate] nor a statement,
    [diff], [commit now] or [discard now].  When the connection cannot be
    made the call fails in [connect], and nothing was sent either. *)
Theorem send_config_no_lines_sends_nothing (commit : bool) (d : device) (s : session) :
  send_config [] commit d s
  = if connected s || reachable d
    then (Returned {| changed := false; commands := []; diff := [] |},
          {| connected := true; sent := sent s |})
    else (FailJson ConnectFailed, s).
Proof.
  unfold send_config, bind, connect, ret.
  destruct s as [[] log], d as [[] r]; reflexivity.
Qed.

(** C5.  When every statement is accepted and the output of [diff] is made
    only of the echoed line [diff] and bracketed prompt lines, the cleaned
    diff is the empty string, [send_config] reports [changed = false], and
    after the statements the shell receives exactly [diff], [discard now]
    and [quit]: no [commit now] is sent, whatever [commit] asks. *)
Theorem send_config_empty_diff_discards
    (lines : list text) (commit : bool) (d : device) (s : session) :
  lines <> [] ->
  connected s || reachable d = true ->
  let log := sent s ++ [lit "enter candidate"] in
  let diff_output := respond d (log ++ statements lines ++ [lit "diff"]) in
  mentions "candidate" (respond d log) = true ->
  accepted d log (statements lines) = true ->
  forallb diff_echo_or_banner (split_lines (_strip_ansi_codes diff_output)) = true ->
  _clean_diff_output diff_output = []
  /\ send_config lines commit d s
     = (Returned {| changed := false; commands := statements lines; diff := [] |},
        {| connected := true;
           sent := log ++ statements lines
                   ++ [lit "diff"; lit "discard now"; lit "quit"] |}).
Proof.
  intros Hne Hconn log diff_output Hcand Hacc Hdiff.
  pose proof (clean_diff_output_noise diff_output Hdiff) as Hclean.
  split; [exact Hclean|].
  destruct lines as [|l ls]; [contradiction|].
  unfold send_config. unfold bind at 1. rewrite (connect_ok d s Hconn).
  unfold bind at 1. unfold enter_candidate_mode. unfold bind at 1.
  unfold connect at 1. cbn [connected sent].
  unfold bind at 1. rewrite send_command_connected. fold log. rewrite Hcand.
  cbn [negb]. unfold ret at 1.
  unfold bind at 1. rewrite (send_lines_accepted d (l :: ls) [] log Hacc).
  unfold bind at 1. rewrite send_command_connected.
  rewrite <- app_assoc. fold diff_output. rewrite Hclean.
  cbn [has_changes]. unfold bind at 1. unfold bind at 1.
  rewrite send_command_connected. unfold ret at 1.
  unfold bind at 1. unfold exit_candidate_mode. unfold bind at 1.
  rewrite send_command_connected. unfold ret.
  rewrite <- !app_assoc. reflexivity.
Qed.

Lemma send_config_empty_diff_discards_witness :
  send_config [lit "set / system name host-name srl1"] true unchanged_device fresh
  = (Returned {| changed := false;
                 commands := [lit "set / system name host-name srl1"];
                 diff := [] |},
     {| connected := true;
        sent := [lit "enter candidate"; lit "set / system name host-name srl1";
                 lit "diff"; lit "discard now"; lit "quit"] |}).
Proof.
  apply (send_config_empty_diff_discards
           [lit "set / system name host-name srl1"] true unchanged_device fresh);
    [discriminate | reflexivity | reflexivity | reflexivity | reflexivity].
Defined.

(** C1.  A rejected statement stops the batch: the statements after it are
    not sent and the call fails with the device's text.  After the rejected
    statement the shell receives [quit] alone; [discard now] is not sent,
    so the candidate is left without being discarded. *)
Theorem send_config_rejected_quits_without_discard :
  send_config [bogus_statement; lit "set / system name host-name srl1"] true
    rejecting_device fresh
  = (FailJson (ConfigurationError (lit "Error: invalid option")),
     {| connected := true;
        sent := [lit "enter candidate"; bogus_statement; lit "quit"] |})
  /\ times_sent (lit "discard now")
       (snd (send_config [bogus_statement] true rejecting_device fresh)) = 0
  /\ times_sent (lit "quit")
       (snd (send_config [bogus_statement] true rejecting_device fresh)) = 1.
Proof. repeat split; vm_compute; reflexivity. Qed.

(** ** Cleaning the diff *)

Lemma In_lstrip (c : ascii) (s : text) : In c (lstrip s) -> In c s.
Proof.
  induction s as [|a s IH]; simpl; [tauto|].
  destruct (isspace a); [right; apply IH; assumption | tauto].
Qed.

Lemma In_strip (c : ascii) (s : text) : In c (strip s) -> In c s.
Proof.
  unfold strip, rstrip. intros H. apply In_lstrip.
  apply in_rev in H. apply In_lstrip in H. apply in_rev in H. exact H.
Qed.

Lemma existsb_strip (f : ascii -> bool) (s : text) :
  existsb f s = false -> existsb f (strip s) = false.
Proof.
  intros H. destruct (existsb f (strip s)) eqn:E; [|reflexivity].
  apply existsb_exists in E. destruct E as (c & Hc & Hf).
  assert (existsb f s = true) by (apply existsb_exists; eauto using In_strip).
  congruence.
Qed.

(** C7, as the code has it.  When the residue left after removing prompt
    lines, [A:]-prompt lines, [diff] echo lines and blank lines contains no
    alphanumeric character and none of the characters [+ - { } [ ]], the
    diff-cleaning operation returns the empty string. *)
Theorem clean_diff_output_symbolic_residue (diff_output : text) :
  existsb significant (residue diff_output) = false ->
  _clean_diff_output diff_output = [].
Proof.
  intros H. unfold _clean_diff_output. cbv zeta. fold (residue diff_output).
  rewrite (existsb_strip _ _ H). destruct (strip (residue diff_output)); reflexivity.
Qed.

Lemma clean_diff_output_symbolic_residue_witness :
  residue (lit "diff" ++ LF :: lit "~~~ ... ~~~" ++ LF :: lit "A:admin@srl1# ")
  = lit "~~~ ... ~~~"
  /\ _clean_diff_output
       (lit "diff" ++ LF :: lit "~~~ ... ~~~" ++ LF :: lit "A:admin@srl1# ") = [].
Proof.
  split; [reflexivity|].
  apply (clean_diff_output_symbolic_residue
           (lit "diff" ++ LF :: lit "~~~ ... ~~~" ++ LF :: lit "A:admin@srl1# ")).
  reflexivity.
Defined.

(** C7, as stated, fails: a residue of [+] alone has no alphanumeric and no
    bracket character, and is returned as it is. *)
Lemma clean_diff_output_keeps_signs :
  existsb (fun c => isalnum c || bracket c) (residue (lit "+")) = false
  /\ _clean_diff_output (lit "+") = lit "+"
  /\ ~ (forall diff_output : text,
          existsb (fun c => isalnum c || bracket c) (residue diff_output) = false ->
          _clean_diff_output diff_output = []).
Proof.
  split; [reflexivity|]. split; [reflexivity|].
  intros H. specialize (H (lit "+") eq_refl). discriminate H.
Qed.

(** ** Lines *)

Lemma split_lines_no_lf (l : text) : no_lf l = true -> split_lines l = [l].
Proof.
  induction l as [|c l IH]; simpl; intros H; [reflexivity|].
  apply andb_true_iff in H. destruct H as [Hc H].
  apply negb_true_iff in Hc. rewrite Hc, (IH H). reflexivity.
Qed.

Lemma split_lines_app_lf (l rest : text) :
  no_lf l = true -> split_lines (l ++ LF :: rest) = l :: split_lines rest.
Proof.
  induction l as [|c l IH]; simpl; intros H.
  - reflexivity.
  - apply andb_true_iff in H. destruct H as [Hc H].
    apply negb_true_iff in Hc. rewrite Hc, (IH H). reflexivity.
Qed.

Lemma split_join_lines (l : text) (ls : list text) :
  forallb no_lf (l :: ls) = true -> split_lines (join_lines (l :: ls)) = l :: ls.
Proof.
  revert l. induction ls as [|l' ls IH]; intros l H.
  - simpl in *. apply split_lines_no_lf.
    apply andb_true_iff in H. tauto.
  - change (join_lines (l :: l' :: ls)) with (l ++ LF :: join_lines (l' :: ls)).
    change (forallb no_lf (l :: l' :: ls)) with (no_lf l && forallb no_lf (l' :: ls)) in H.
    apply andb_true_iff in H. destruct H as [Hl H].
    rewrite (split_lines_app_lf _ _ Hl), (IH l' H). reflexivity.
Qed.

(** C8, as the code has it.  [execute_command] returns the normalized
    output without its first line and without its last line, without any
    line that begins with a bracketed banner, wherever it stands; the other
    lines are joined in their order and the white space around the whole
    is trimmed. *)
Theorem execute_command_body
    (command : text) (d : device) (s : session)
    (echo : text) (body : list text) (final : text) :
  connected s || reachable d = true ->
  forallb no_lf (echo :: body ++ [final]) = true ->
  _strip_ansi_codes (respond d (sent s ++ [command]))
  = join_lines (echo :: body ++ [final]) ->
  execute_command command d s
  = (Returned (strip (join_lines (List.filter not_banner body))),
     {| connected := true; sent := sent s ++ [command] |}).
Proof.
  intros Hconn Hlf Hout. unfold execute_command.
  unfold bind at 1. rewrite (connect_ok d s Hconn).
  unfold bind at 1. rewrite send_command_connected. cbv zeta. unfold ret.
  rewrite Hout, (split_join_lines _ _ Hlf). unfold inner_lines.
  cbn [tl]. rewrite removelast_last. reflexivity.
Qed.

Lemma execute_command_body_witness :
  execute_command (lit "show version") verbose_device fresh
  = (Returned (lit "Hostname : srl1" ++ LF :: lit "  Version  : v23.10.1"),
     {| connected := true; sent := [lit "show version"] |}).
Proof.
  apply (execute_command_body (lit "show version") verbose_device fresh
           (lit "show version")
           [lit "  Hostname : srl1"; lit "--{ running }--[  ]--";
            lit "  Version  : v23.10.1"; lit "--{ running }--[  ]--"]
           (lit "A:admin@srl1# "));
    reflexivity.
Defined.

(** C8, as stated, fails: the last line of the output is removed whether
    or not it is a banner, so a body whose final line is content loses it. *)
Lemma execute_command_drops_last_line :
  fst (execute_command (lit "show interface") terse_device fresh)
  = Returned (lit "ethernet-1/1 is up")
  /\ body_as_specified (respond terse_device [lit "show interface"])
     = lit "ethernet-1/1 is up" ++ LF :: lit "mtu 9232 <default>"
  /\ fst (execute_command (lit "show interface") terse_device fresh)
     <> Returned (body_as_specified (respond terse_device [lit "show interface"])).
Proof.
  split; [reflexivity|]. split; [reflexivity|]. vm_compute. discriminate.
Qed.

(** ** The order of [sorted] *)

Lemma code_inj (a b : ascii) : code a = code b -> a = b.
Proof.
  unfold code. intros H.
  rewrite <- (ascii_N_embedding a), <- (ascii_N_embedding b), H. reflexivity.
Qed.

Lemma text_leb_total (a b : text) : Compare.text_leb a b = true \/ Compare.text_leb b a = true.
Proof.
  revert b. induction a as [|x a IH]; intros [|y b]; simpl; auto.
  destruct (N.ltb_spec (code x) (code y)), (N.ltb_spec (code y) (code x)); auto; lia.
Qed.

Lemma text_leb_trans (a b c : text) :
  Compare.text_leb a b = true -> Compare.text_leb b c = true -> Compare.text_leb a c = true.
Proof.
  revert b c. induction a as [|x a IH]; intros [|y b] [|z c]; simpl; auto; try discriminate.
  destruct (N.ltb_spec (code x) (code y)), (N.ltb_spec (code y) (code x)),
    (N.ltb_spec (code y) (code z)), (N.ltb_spec (code z) (code y)),
    (N.ltb_spec (code x) (code z)), (N.ltb_spec (code z) (code x));
    try discriminate; try lia; auto.
  apply IH.
Qed.

Lemma text_leb_antisym (a b : text) :
  Compare.text_leb a b = true -> Compare.text_leb b a = true -> a = b.
Proof.
  revert b. induction a as [|x a IH]; intros [|y b]; simpl; auto; try discriminate.
  destruct (N.ltb_spec (code x) (code y)), (N.ltb_spec (code y) (code x));
    try discriminate; try lia.
  intros H1 H2. f_equal; [apply code_inj; lia | apply IH; assumption].
Qed.

#[local] Instance text_le_total : Total Compare.text_le.
Proof. intros a b. apply text_leb_total. Qed.

#[local] Instance text_le_trans : Transitive Compare.text_le.
Proof. intros a b c. apply text_leb_trans. Qed.

#[local] Instance text_le_antisym : AntiSymm (=) Compare.text_le.
Proof. intros a b. apply text_leb_antisym. Qed.

Lemma elem_of_sorted (x : text) (l : list text) : x ∈ Compare.sorted l <-> x ∈ l.
Proof. unfold Compare.sorted. rewrite merge_sort_Permutation. reflexivity. Qed.

Lemma sorted_Sorted (l : list text) : Sorted Compare.text_le (Compare.sorted l).
Proof. apply Sorted_merge_sort. apply _. Qed.

Lemma sorted_NoDup (X : gset text) : NoDup (Compare.sorted (elements X)).
Proof.
  unfold Compare.sorted. rewrite merge_sort_Permutation. apply NoDup_elements.
Qed.

Lemma elem_of_statement_set (x : text) (lines : list text) :
  x ∈ Compare.statement_set lines
  <-> exists line, In line lines /\ x = strip line /\ startswith (lit "set ") x = true.
Proof.
  unfold Compare.statement_set. rewrite elem_of_list_to_set, list_elem_of_In.
  rewrite List.filter_In, List.in_map_iff. split.
  - intros [(line & <- & Hin) Hst]. exists line. repeat split; auto.
    unfold Compare.is_statement in Hst. destruct (strip line); [discriminate | exact Hst].
  - intros (line & Hin & -> & Hst). split; [eauto|].
    unfold Compare.is_statement. destruct (strip line); [discriminate | exact Hst].
Qed.

Lemma nonempty_empty : Compare.nonempty ∅ = false.
Proof. reflexivity. Qed.

Lemma sorted_elements_empty : Compare.sorted (elements (∅ : gset text)) = [].
Proof. rewrite elements_empty. reflexivity. Qed.

(** C2.  [compare] turns both sides into the set of their trimmed lines
    that begin with [set ]; [missing] lists the statements of the intended
    set that are not observed and [extra] those observed that are not
    intended, each in ascending order without repetition.  Equal sets give
    no drift and an empty diff; disjoint non-empty sets give the whole
    intended set as [missing] and the whole observed set as [extra]. *)
Theorem compare_missing_and_extra
    (intended : list text) (config_path : text) (keep : bool) (observed : text) :
  let I := Compare.statement_set intended in
  let O := Compare.statement_set (split_lines observed) in
  let r := Compare.compare intended config_path keep observed in
  (forall x, x ∈ I <->
     exists line, In line intended /\ x = strip line /\ startswith (lit "set ") x = true)
  /\ (forall x, x ∈ O <->
        exists line, In line (split_lines observed)
                     /\ x = strip line /\ startswith (lit "set ") x = true)
  /\ (forall x, x ∈ Compare.missing r <-> x ∈ I /\ x ∉ O)
  /\ (forall x, x ∈ Compare.extra r <-> x ∈ O /\ x ∉ I)
  /\ Sorted Compare.text_le (Compare.missing r) /\ NoDup (Compare.missing r)
  /\ Sorted Compare.text_le (Compare.extra r) /\ NoDup (Compare.extra r)
  /\ (I = O -> Compare.has_drift r = false /\ Compare.diff r = [])
  /\ (I ## O -> I <> ∅ -> O <> ∅ ->
      Compare.missing r = Compare.sorted (elements I)
      /\ Compare.extra r = Compare.sorted (elements O)).
Proof.
  intros I O r. subst r. unfold Compare.compare. cbv zeta. fold I O. cbn.
  split; [intros x; apply elem_of_statement_set|].
  split; [intros x; apply elem_of_statement_set|].
  split; [intros x; rewrite elem_of_sorted, elem_of_elements; set_solver|].
  split; [intros x; rewrite elem_of_sorted, elem_of_elements; set_solver|].
  split; [apply sorted_Sorted|]. split; [apply sorted_NoDup|].
  split; [apply sorted_Sorted|]. split; [apply sorted_NoDup|].
  split.
  - intros ->. rewrite difference_diag_L.
    rewrite nonempty_empty, sorted_elements_empty. split; reflexivity.
  - intros Hdisj _ _.
    rewrite (difference_disjoint_L I O Hdisj).
    symmetry in Hdisj. rewrite (difference_disjoint_L O I Hdisj).
    split; reflexivity.
Qed.

Lemma compare_missing_and_extra_witness :
  (let r := Compare.compare [lit "set / system name host-name srl1"] (lit "/") false
              (lit "  set / system name host-name srl1 " ++ LF :: lit "A:admin@srl1# ") in
   Compare.has_drift r = false /\ Compare.diff r = [])
  /\ (let r := Compare.compare [lit "set / system name host-name srl1"] (lit "/") false
                 (lit "set / system name host-name lab") in
      Compare.missing r = Compare.sorted (elements (Compare.statement_set
                                            [lit "set / system name host-name srl1"]))
      /\ Compare.extra r = Compare.sorted (elements (Compare.statement_set
                                            (split_lines (lit "set / system name host-name lab"))))).
Proof.
  split.
  - apply (compare_missing_and_extra [lit "set / system name host-name srl1"] (lit "/") false
             (lit "  set / system name host-name srl1 " ++ LF :: lit "A:admin@srl1# ")).
    vm_compute. reflexivity.
  - apply (compare_missing_and_extra [lit "set / system name host-name srl1"] (lit "/") false
             (lit "set / system name host-name lab")).
    + apply (bool_decide_unpack _). vm_compute. exact I.
    + apply (bool_decide_unpack _). vm_compute. exact I.
    + apply (bool_decide_unpack _). vm_compute. exact I.
Defined.

(** C6.  The diff text of [compare] is the lines of [missing], each after
    [+ ], followed by the lines of [extra], each after [- ], joined by line
    feeds; both lists are in ascending order.  With the single intended
    statement [set / interface ethernet-1/1 admin-state enable] and an empty
    observed output, [missing] is that statement, [extra] is empty, there is
    drift, and the diff text is the statement after [+ ]. *)
Theorem compare_diff_text :
  (forall (intended : list text) (config_path : text) (keep : bool) (observed : text),
      let r := Compare.compare intended config_path keep observed in
      Compare.diff r
      = join_lines (map (fun line => lit "+ " ++ line) (Compare.missing r)
                    ++ map (fun line => lit "- " ++ line) (Compare.extra r))
      /\ Sorted Compare.text_le (Compare.missing r)
      /\ Sorted Compare.text_le (Compare.extra r)
      /\ Compare.has_drift r
         = negb (bool_decide (Compare.missing r = [] /\ Compare.extra r = [])))
  /\ (let r := Compare.compare [lit "set / interface ethernet-1/1 admin-state enable"]
                 (lit "/") false [] in
      Compare.missing r = [lit "set / interface ethernet-1/1 admin-state enable"]
      /\ Compare.extra r = []
      /\ Compare.has_drift r = true
      /\ Compare.diff r = lit "+ set / interface ethernet-1/1 admin-state enable").
Proof.
  split.
  - intros intended config_path keep observed r.
    split; [reflexivity|]. split; [apply sorted_Sorted|]. split; [apply sorted_Sorted|].
    subst r. unfold Compare.compare. cbn.
    set (A := Compare.statement_set intended ∖ Compare.statement_set (split_lines observed)).
    set (B := Compare.statement_set (split_lines observed) ∖ Compare.statement_set intended).
    assert (HE : forall X : gset text, Compare.sorted (elements X) = [] <-> X = ∅).
    { intros X. split.
      - intros H. apply set_eq. intros x.
        rewrite <- elem_of_elements, <- elem_of_sorted, H. set_solver.
      - intros ->. apply sorted_elements_empty. }
    unfold Compare.nonempty.
    destruct (decide (A = ∅)) as [HA|HA], (decide (B = ∅)) as [HB|HB].
    + rewrite !bool_decide_eq_true_2 by (rewrite ?HE; auto). reflexivity.
    + rewrite (bool_decide_eq_true_2 _ HA), (bool_decide_eq_false_2 _ HB).
      rewrite bool_decide_eq_false_2; [reflexivity|]. rewrite !HE. tauto.
    + rewrite (bool_decide_eq_false_2 _ HA).
      rewrite (bool_decide_eq_false_2 (_ /\ _)); [reflexivity|]. rewrite !HE. tauto.
    + rewrite (bool_decide_eq_false_2 _ HA).
      rewrite (bool_decide_eq_false_2 (_ /\ _)); [reflexivity|]. rewrite !HE. tauto.
  - vm_compute. repeat split; reflexivity.
Qed.

(** ** The compare module *)

Lemma no_send_command : Compare.SRLinuxConnection !! "send_command"%string = None.
Proof. vm_compute. reflexivity. Qed.

Lemma call_send_command (arg : text) (d : device) (s : session) :
  Compare.call "send_command" arg d s
  = (Raised (Compare.no_attribute "send_command"), s).
Proof. unfold Compare.call. rewrite no_send_command. reflexivity. Qed.

(** C9.  The connection object has no attribute [send_command], only
    [_send_command] and [execute_command].  Every run of the compare module
    therefore ends in [fail_json] and never in a drift report: a run that
    gets as far as asking for the running configuration raises the
    attribute error, takes the [except] branch, and fails with
    [Configuration comparison failed: ...]; the only other runs are those
    that fail before, on a missing intended file or a missing paramiko.
    Nothing is sent to the device in any of them. *)
Theorem compare_main_always_fails
    (h : Compare.host) (p : Compare.params) (d : device) (s : session) :
  Compare.SRLinuxConnection !! "send_command"%string = None
  /\ is_Some (Compare.SRLinuxConnection !! "_send_command"%string)
  /\ is_Some (Compare.SRLinuxConnection !! "execute_command"%string)
  /\ Compare.main h p d s
     = match early_failure h p with
       | Some f => (FailJson f, s)
       | None =>
           (FailJson (ComparisonFailed (Compare.no_attribute "send_command")),
            {| connected := false; sent := sent s |})
       end.
Proof.
  split; [exact no_send_command|].
  split; [vm_compute; eauto|]. split; [vm_compute; eauto|].
  unfold Compare.main, early_failure, bind, fail_json, ret, Compare.try_except.
  destruct (Compare.intended_file p) as [[|c f]|];
    try match goal with
        | |- context [Compare.file h ?x] => destruct (Compare.file h x)
        end;
    destruct (Compare.has_paramiko h); try reflexivity;
    rewrite call_send_command; reflexivity.
Qed.

(** * Further properties of the engine *)

(** ** Candidate transactions *)

Lemma send_lines_rejected (d : device) (before : list text) (bad : text)
    (after : list text) :
  forall (cmds log : list text),
    accepted d log (statements before) = true ->
    blank bad = false ->
    rejected (respond d (log ++ statements before ++ [bad])) = true ->
    send_lines (before ++ bad :: after) cmds d {| connected := true; sent := log |}
    = (FailJson (ConfigurationError (respond d (log ++ statements before ++ [bad]))),
       {| connected := true;
          sent := log ++ statements before ++ [bad; lit "quit"] |}).
Proof.
  induction before as [|line before IH]; intros cmds log Hacc Hbad Hrej.
  - simpl in *. rewrite Hbad. cbn [negb].
    unfold bind at 1. rewrite send_command_connected.
    unfold rejected in Hrej. rewrite Hrej.
    unfold bind, exit_candidate_mode, bind, fail_json, ret.
    rewrite send_command_connected. rewrite <- app_assoc. reflexivity.
  - unfold statements in *. simpl in *. destruct (blank line); simpl in *.
    + apply IH; assumption.
    + apply andb_true_iff in Hacc. destruct Hacc as [Hok Hacc].
      unfold bind at 1. rewrite send_command_connected.
      unfold rejected in Hok. apply negb_true_iff in Hok. rewrite Hok.
      assert (Hrej' : rejected (respond d ((log ++ [line])
                        ++ List.filter (fun l => negb (blank l)) before ++ [bad])) = true)
        by (rewrite <- app_assoc; exact Hrej).
      rewrite (IH _ _ Hacc Hbad Hrej'). rewrite <- !app_assoc. reflexivity.
Qed.

Lemma enter_candidate_acknowledged (d : device) (log : list text) :
  mentions "candidate" (respond d (log ++ [lit "enter candidate"])) = true ->
  enter_candidate_mode d {| connected := true; sent := log |}
  = (Returned true, {| connected := true; sent := log ++ [lit "enter candidate"] |}).
Proof.
  intros H. unfold enter_candidate_mode, bind, connect. cbn [connected sent].
  rewrite send_command_connected, H. reflexivity.
Qed.

Lemma enter_candidate_refused (d : device) (log : list text) :
  mentions "candidate" (respond d (log ++ [lit "enter candidate"])) = false ->
  enter_candidate_mode d {| connected := true; sent := log |}
  = (FailJson CandidateEntryFailed,
     {| connected := true; sent := log ++ [lit "enter candidate"] |}).
Proof.
  intros H. unfold enter_candidate_mode, bind, connect. cbn [connected sent].
  rewrite send_command_connected, H. reflexivity.
Qed.

(** X1.  A statement whose response carries an error marker ends the
    batch, wherever it stands: the statements before it were sent, those
    after it are not, the call fails with the device's text, and the shell
    receives [quit] as its last command. *)
Theorem send_config_rejection_stops_batch
    (before : list text) (bad : text) (after : list text)
    (commit : bool) (d : device) (s : session) :
  connected s || reachable d = true ->
  let log := sent s ++ [lit "enter candidate"] in
  mentions "candidate" (respond d log) = true ->
  accepted d log (statements before) = true ->
  blank bad = false ->
  rejected (respond d (log ++ statements before ++ [bad])) = true ->
  send_config (before ++ bad :: after) commit d s
  = (FailJson (ConfigurationError (respond d (log ++ statements before ++ [bad]))),
     {| connected := true;
        sent := log ++ statements before ++ [bad; lit "quit"] |}).
Proof.
  intros Hconn log Hcand Hacc Hbad Hrej.
  unfold send_config. unfold bind at 1. rewrite (connect_ok d s Hconn).
  destruct (before ++ bad :: after) as [|l ls] eqn:E.
  { destruct before; discriminate E. }
  rewrite <- E. clear E l ls.
  unfold bind at 1. rewrite (enter_candidate_acknowledged d (sent s) Hcand).
  unfold bind at 1. fold log.
  rewrite (send_lines_rejected d before bad after [] log Hacc Hbad Hrej).
  reflexivity.
Qed.

Lemma send_config_rejection_stops_batch_witness :
  send_config ([lit "  "] ++ bogus_statement :: [lit "set / system name host-name srl1"])
    false rejecting_device fresh
  = (FailJson (ConfigurationError (lit "Error: invalid option")),
     {| connected := true;
        sent := [lit "enter candidate"; bogus_statement; lit "quit"] |}).
Proof.
  apply (send_config_rejection_stops_batch [lit "  "] bogus_statement
           [lit "set / system name host-name srl1"] false rejecting_device fresh);
    reflexivity.
Defined.

(** X2.  When the answer to [enter candidate] does not mention the
    candidate, [send_config] and [check_config_diff] fail at once: no
    statement, no [diff] and no [quit] follows the entry command. *)
Theorem candidate_entry_refused_sends_nothing_more
    (lines : list text) (commit : bool) (d : device) (s : session) :
  lines <> [] ->
  connected s || reachable d = true ->
  mentions "candidate" (respond d (sent s ++ [lit "enter candidate"])) = false ->
  send_config lines commit d s
  = (FailJson CandidateEntryFailed,
     {| connected := true; sent := sent s ++ [lit "enter candidate"] |})
  /\ check_config_diff lines d s
     = (FailJson CandidateEntryFailed,
        {| connected := true; sent := sent s ++ [lit "enter candidate"] |}).
Proof.
  intros Hne Hconn Hno. split.
  - unfold send_config. unfold bind at 1. rewrite (connect_ok d s Hconn).
    destruct lines as [|l ls]; [contradiction|].
    unfold bind at 1. rewrite (enter_candidate_refused d (sent s) Hno). reflexivity.
  - unfold check_config_diff. unfold bind at 1. rewrite (connect_ok d s Hconn).
    unfold bind at 1. rewrite (enter_candidate_refused d (sent s) Hno). reflexivity.
Qed.

Lemma candidate_entry_refused_sends_nothing_more_witness :
  send_config [admin_enable] true refusing_device fresh
  = (FailJson CandidateEntryFailed,
     {| connected := true; sent := [lit "enter candidate"] |}).
Proof.
  apply (candidate_entry_refused_sends_nothing_more [admin_enable] true
           refusing_device fresh); [discriminate | reflexivity | reflexivity].
Defined.

Lemma send_config_reaches_diff
    (lines : list text) (commit : bool) (d : device) (s : session) :
  lines <> [] ->
  connected s || reachable d = true ->
  let log := sent s ++ [lit "enter candidate"] in
  mentions "candidate" (respond d log) = true ->
  accepted d log (statements lines) = true ->
  send_config lines commit d s
  = (let diff_output := respond d (log ++ statements lines ++ [lit "diff"]) in
     let diff := _clean_diff_output diff_output in
     (changed <-
        (if has_changes diff then
           if commit then
             commit_output <- _send_command (lit "commit now") ;;
             if mentions "error" commit_output || mentions "failed" commit_output then
               exit_candidate_mode ;;; fail_json (CommitFailed commit_output)
             else ret true
           else ret true
         else _send_command (lit "discard now") ;;; ret false) ;;
      exit_candidate_mode ;;;
      ret {| changed := changed; commands := statements lines; diff := diff |})
       d {| connected := true; sent := log ++ statements lines ++ [lit "diff"] |}).
Proof.
  intros Hne Hconn log Hcand Hacc.
  destruct lines as [|l ls]; [contradiction|].
  unfold send_config. unfold bind at 1. rewrite (connect_ok d s Hconn).
  unfold bind at 1. rewrite (enter_candidate_acknowledged d (sent s) Hcand).
  unfold bind at 1. fold log. rewrite (send_lines_accepted d (l :: ls) [] log Hacc).
  unfold bind at 1. rewrite send_command_connected. rewrite <- app_assoc.
  reflexivity.
Qed.

(** X3.  When the cleaned diff shows changes and a commit is requested,
    [send_config] sends [commit now] and then [quit], and never
    [discard now].  It reports [changed = true] with the cleaned diff,
    unless the answer to the commit mentions [error] or [failed]: then it
    fails with that answer, after the same [quit]. *)
Theorem send_config_commits_changes
    (lines : list text) (d : device) (s : session) :
  lines <> [] ->
  connected s || reachable d = true ->
  let log := sent s ++ [lit "enter candidate"] in
  let stmts := statements lines in
  let diff := _clean_diff_output (respond d (log ++ stmts ++ [lit "diff"])) in
  let commit_output := respond d (log ++ stmts ++ [lit "diff"; lit "commit now"]) in
  mentions "candidate" (respond d log) = true ->
  accepted d log stmts = true ->
  has_changes diff = true ->
  send_config lines true d s
  = (if mentions "error" commit_output || mentions "failed" commit_output
     then FailJson (CommitFailed commit_output)
     else Returned {| changed := true; commands := stmts; diff := diff |},
     {| connected := true;
        sent := log ++ stmts ++ [lit "diff"; lit "commit now"; lit "quit"] |}).
Proof.
  intros Hne Hconn log stmts diff commit_output Hcand Hacc Hch.
  rewrite (send_config_reaches_diff lines true d s Hne Hconn Hcand Hacc).
  cbv zeta. fold log stmts diff. rewrite Hch.
  unfold bind at 1. unfold bind at 1. rewrite send_command_connected.
  rewrite <- !app_assoc. cbn [app]. fold commit_output.
  destruct (mentions "error" commit_output || mentions "failed" commit_output).
  - unfold bind, exit_candidate_mode, bind, fail_json, ret.
    rewrite send_command_connected. rewrite <- !app_assoc. reflexivity.
  - unfold ret at 1. unfold bind, exit_candidate_mode, bind, ret.
    rewrite send_command_connected. rewrite <- !app_assoc. reflexivity.
Qed.

Lemma send_config_commits_changes_witness :
  send_config [admin_enable] true changing_device fresh
  = (Returned {| changed := true; commands := [admin_enable];
                 diff := lit "interface ethernet-1/1 {" ++ LF
                           :: lit "+         admin-state enable" ++ LF :: lit "      }" |},
     {| connected := true;
        sent := [lit "enter candidate"; admin_enable; lit "diff"; lit "commit now";
                 lit "quit"] |}).
Proof.
  apply (send_config_commits_changes [admin_enable] changing_device fresh);
    [discriminate | reflexivity | reflexivity | reflexivity | reflexivity].
Defined.

(** X4.  When the cleaned diff shows changes and no commit is requested,
    [send_config] reports [changed = true] and leaves candidate mode with
    [quit] alone: it sends neither [commit now] nor [discard now]. *)
Theorem send_config_without_commit_keeps_changes
    (lines : list text) (d : device) (s : session) :
  lines <> [] ->
  connected s || reachable d = true ->
  let log := sent s ++ [lit "enter candidate"] in
  let stmts := statements lines in
  let diff := _clean_diff_output (respond d (log ++ stmts ++ [lit "diff"])) in
  mentions "candidate" (respond d log) = true ->
  accepted d log stmts = true ->
  has_changes diff = true ->
  send_config lines false d s
  = (Returned {| changed := true; commands := stmts; diff := diff |},
     {| connected := true; sent := log ++ stmts ++ [lit "diff"; lit "quit"] |}).
Proof.
  intros Hne Hconn log stmts diff Hcand Hacc Hch.
  rewrite (send_config_reaches_diff lines false d s Hne Hconn Hcand Hacc).
  cbv zeta. fold log stmts diff. rewrite Hch.
  unfold bind, exit_candidate_mode, bind, ret.
  rewrite send_command_connected. rewrite <- !app_assoc. reflexivity.
Qed.

Lemma send_config_without_commit_keeps_changes_witness :
  sent (snd (send_config [admin_enable] false changing_device fresh))
  = [lit "enter candidate"; admin_enable; lit "diff"; lit "quit"].
Proof.
  rewrite (send_config_without_commit_keeps_changes [admin_enable] changing_device fresh);
    [reflexivity | discriminate | reflexivity | reflexivity | reflexivity | reflexivity].
Defined.

Lemma send_lines_cons (d : device) (line : text) (rest cmds log : list text) :
  send_lines (line :: rest) cmds d {| connected := true; sent := log |}
  = if blank line then send_lines rest cmds d {| connected := true; sent := log |}
    else if rejected (respond d (log ++ [line]))
         then (FailJson (ConfigurationError (respond d (log ++ [line]))),
               {| connected := true; sent := log ++ [line; lit "quit"] |})
         else send_lines rest (cmds ++ [line]) d
                {| connected := true; sent := log ++ [line] |}.
Proof.
  simpl. destruct (blank line); cbn [negb]; [reflexivity|].
  unfold bind at 1. rewrite send_command_connected. unfold rejected.
  destruct (mentions "error" (respond d (log ++ [line]))
            || mentions "invalid" (respond d (log ++ [line]))); [|reflexivity].
  unfold bind, exit_candidate_mode, bind, fail_json, ret.
  rewrite send_command_connected, <- app_assoc. reflexivity.
Qed.

Lemma send_lines_outcome (d : device) (lines : list text) :
  forall (cmds log : list text),
    exists mid : list text,
      (exists cmds',
          send_lines lines cmds d {| connected := true; sent := log |}
          = (Returned cmds', {| connected := true; sent := log ++ mid |}))
      \/ (exists output,
             send_lines lines cmds d {| connected := true; sent := log |}
             = (FailJson (ConfigurationError output),
                {| connected := true; sent := log ++ mid ++ [lit "quit"] |})).
Proof.
  induction lines as [|line lines IH]; intros cmds log.
  - exists []. left. exists cmds. simpl. unfold ret. rewrite app_nil_r. reflexivity.
  - rewrite send_lines_cons. destruct (blank line); [apply IH|].
    destruct (rejected (respond d (log ++ [line]))).
    + exists [line]. right. exists (respond d (log ++ [line])). reflexivity.
    + destruct (IH (cmds ++ [line]) (log ++ [line])) as (mid & [(c & H) | (o & H)]).
      * exists (line :: mid). left. exists c. rewrite H, <- app_assoc. reflexivity.
      * exists (line :: mid). right. exists o. rewrite H, <- app_assoc. reflexivity.
Qed.

Lemma send_config_shape
    (lines : list text) (commit : bool) (d : device) (s : session) :
  lines <> [] ->
  connected s || reachable d = true ->
  mentions "candidate" (respond d (sent s ++ [lit "enter candidate"])) = true ->
  exists (middle : list text) (o : outcome config_result),
    send_config lines commit d s
    = (o, {| connected := true;
             sent := sent s ++ [lit "enter candidate"] ++ middle ++ [lit "quit"] |})
    /\ (forall e, o <> Raised e).
Proof.
  intros Hne Hconn Hcand. destruct lines as [|l ls]; [contradiction|].
  unfold send_config. unfold bind at 1. rewrite (connect_ok d s Hconn).
  unfold bind at 1. rewrite (enter_candidate_acknowledged d (sent s) Hcand).
  set (log := sent s ++ [lit "enter candidate"]).
  destruct (send_lines_outcome d (l :: ls) [] log) as (mid & [(c & H) | (o & H)]).
  - unfold bind at 1. rewrite H.
    unfold bind at 1. rewrite send_command_connected.
    set (diff := _clean_diff_output _).
    destruct (has_changes diff); [destruct commit|].
    + unfold bind at 1. unfold bind at 1. rewrite send_command_connected.
      set (co := respond d _).
      exists (mid ++ [lit "diff"; lit "commit now"]).
      destruct (mentions "error" co || mentions "failed" co);
        eexists; unfold bind, exit_candidate_mode, bind, fail_json, ret;
        rewrite send_command_connected; subst log; rewrite <- ?app_assoc;
        (split; [reflexivity | discriminate]).
    + exists (mid ++ [lit "diff"]). eexists.
      unfold bind, exit_candidate_mode, bind, fail_json, ret.
      rewrite send_command_connected. subst log. rewrite <- ?app_assoc.
      split; [reflexivity | discriminate].
    + exists (mid ++ [lit "diff"; lit "discard now"]). eexists.
      unfold bind, exit_candidate_mode, bind, fail_json, ret.
      rewrite !send_command_connected. subst log. rewrite <- ?app_assoc.
      split; [reflexivity | discriminate].
  - exists mid. eexists. unfold bind at 1. rewrite H. subst log.
    rewrite <- ?app_assoc. split; [reflexivity | discriminate].
Qed.

(** X5.  Once candidate mode is entered, every run of [send_config] ends
    with [quit] as the last command on the shell, whether the statements
    are accepted or one is rejected, whether the diff shows changes or
    not, and whether the commit succeeds or fails; the run returns or
    fails, it never leaves through an exception. *)
Theorem send_config_always_quits
    (lines : list text) (commit : bool) (d : device) (s : session) :
  lines <> [] ->
  connected s || reachable d = true ->
  mentions "candidate" (respond d (sent s ++ [lit "enter candidate"])) = true ->
  exists middle : list text,
    sent (snd (send_config lines commit d s))
    = sent s ++ [lit "enter candidate"] ++ middle ++ [lit "quit"]
    /\ connected (snd (send_config lines commit d s)) = true
    /\ (forall e, fst (send_config lines commit d s) <> Raised e).
Proof.
  intros Hne Hconn Hcand.
  destruct (send_config_shape lines commit d s Hne Hconn Hcand) as (mid & o & E & Ho).
  exists mid. rewrite E. repeat split. exact Ho.
Qed.

Lemma send_config_always_quits_witness :
  exists middle : list text,
    sent (snd (send_config [admin_enable] true changing_device fresh))
    = sent fresh ++ [lit "enter candidate"] ++ middle ++ [lit "quit"]
    /\ connected (snd (send_config [admin_enable] true changing_device fresh)) = true
    /\ (forall e, fst (send_config [admin_enable] true changing_device fresh) <> Raised e).
Proof.
  apply (send_config_always_quits [admin_enable] true changing_device fresh);
    [discriminate | reflexivity | reflexivity].
Defined.

Lemma send_all_connected (d : device) (lines : list text) :
  forall log : list text,
    send_all lines d {| connected := true; sent := log |}
    = (Returned tt, {| connected := true; sent := log ++ statements lines |}).
Proof.
  induction lines as [|line lines IH]; intros log; simpl.
  - unfold ret. rewrite app_nil_r. reflexivity.
  - unfold statements in *. simpl. destruct (blank line); cbn [negb].
    + apply IH.
    + unfold bind. rewrite send_command_connected, IH, <- app_assoc. reflexivity.
Qed.

(** X6.  [check_config_diff] is a dry run: once candidate mode is entered
    it sends the statements that are not blank, then [diff],
    [discard now] and [quit], and returns the cleaned diff.  It looks at no
    response for error markers, so a rejected statement does not stop it,
    and it never sends [commit now]. *)
Theorem check_config_diff_discards
    (lines : list text) (d : device) (s : session) :
  connected s || reachable d = true ->
  let log := sent s ++ [lit "enter candidate"] in
  mentions "candidate" (respond d log) = true ->
  check_config_diff lines d s
  = (Returned (_clean_diff_output (respond d (log ++ statements lines ++ [lit "diff"]))),
     {| connected := true;
        sent := log ++ statements lines
                ++ [lit "diff"; lit "discard now"; lit "quit"] |}).
Proof.
  intros Hconn log Hcand. unfold check_config_diff.
  unfold bind at 1. rewrite (connect_ok d s Hconn).
  unfold bind at 1. rewrite (enter_candidate_acknowledged d (sent s) Hcand).
  unfold bind at 1. fold log. rewrite send_all_connected.
  unfold bind at 1. rewrite send_command_connected.
  unfold bind at 1. rewrite send_command_connected.
  unfold bind, exit_candidate_mode, bind, ret. rewrite send_command_connected.
  rewrite <- ?app_assoc. reflexivity.
Qed.

Lemma check_config_diff_discards_witness :
  check_config_diff [bogus_statement; admin_enable] rejecting_device fresh
  = (Returned [],
     {| connected := true;
        sent := [lit "enter candidate"; bogus_statement; admin_enable;
                 lit "diff"; lit "discard now"; lit "quit"] |}).
Proof.
  rewrite (check_config_diff_discards [bogus_statement; admin_enable] rejecting_device fresh);
    reflexivity.
Defined.

(** ** Substrings *)

Lemma startswith_spec (p s : text) :
  startswith p s = true <-> exists post, s = p ++ post.
Proof.
  revert s. induction p as [|a p IH]; intros s; simpl.
  - split; [intros _; exists s; reflexivity | reflexivity].
  - destruct s as [|b s].
    + split; [discriminate | intros [post H]; discriminate H].
    + rewrite andb_true_iff, ascii_eqb_eq, IH. split.
      * intros [-> [post ->]]. exists post. reflexivity.
      * intros [post H]. injection H as -> ->. split; [reflexivity | eauto].
Qed.

Lemma contains_spec (p s : text) :
  contains p s = true <-> exists pre post, s = pre ++ p ++ post.
Proof.
  induction s as [|c s IH]; simpl.
  - rewrite orb_false_r, startswith_spec. split.
    + intros [post H]. exists [], post. exact H.
    + intros (pre & post & H). destruct pre as [|x pre]; [|discriminate H].
      exists post. exact H.
  - rewrite orb_true_iff, IH, startswith_spec. split.
    + intros [[post H] | (pre & post & H)].
      * exists [], post. exact H.
      * exists (c :: pre), post. rewrite H. reflexivity.
    + intros (pre & post & H). destruct pre as [|x pre].
      * left. exists post. exact H.
      * right. injection H as -> ->. exists pre, post. reflexivity.
Qed.

Lemma mentions_lowercase_part (before part after : text) (marker : string) (output : text) :
  lit marker = part ->
  lower part = part ->
  contains (before ++ part ++ after) output = true ->
  mentions marker output = true.
Proof.
  intros Hm Hl H. unfold mentions. rewrite Hm.
  apply contains_spec in H. destruct H as (pre & post & ->).
  apply contains_spec. exists (lower (pre ++ before)), (lower (after ++ post)).
  unfold lower in *. rewrite !map_app, Hl, <- !app_assoc. reflexivity.
Qed.

(** X7.  The test of [enter_candidate_mode] looks for the word
    [candidate] in the raw output, so a response that carries the echo of
    the command [enter candidate] always passes it, whatever the device
    says after the echo. *)
Theorem enter_candidate_accepts_echo (d : device) (s : session) :
  connected s || reachable d = true ->
  contains (lit "enter candidate") (respond d (sent s ++ [lit "enter candidate"])) = true ->
  enter_candidate_mode d s
  = (Returned true,
     {| connected := true; sent := sent s ++ [lit "enter candidate"] |}).
Proof.
  intros Hconn Hecho. unfold enter_candidate_mode.
  unfold bind at 1. rewrite (connect_ok d s Hconn).
  unfold bind. rewrite send_command_connected.
  rewrite (mentions_lowercase_part (lit "enter ") (lit "candidate") [] "candidate"
             _ eq_refl eq_refl Hecho).
  reflexivity.
Qed.

Lemma enter_candidate_accepts_echo_witness :
  enter_candidate_mode
    {| reachable := true;
       respond := fun log => last_sent log ++ LF :: lit "Error: access denied" |}
    fresh
  = (Returned true, {| connected := true; sent := [lit "enter candidate"] |}).
Proof.
  apply (enter_candidate_accepts_echo
           {| reachable := true;
              respond := fun log => last_sent log ++ LF :: lit "Error: access denied" |}
           fresh); reflexivity.
Defined.

(** ** The prompt-synchronized read, in general *)

Lemma read_loop_result (ch : channel) :
  forall fuel k,
    0 < fuel ->
    (max_wait <= elapsed_at ch k + poll_interval * N.of_nat (fuel - 1))%N ->
    exists n, k <= n <= k + (fuel - 1)
      /\ read_loop fuel ch k (elapsed_at ch k) (accumulated ch k)
         = Some (accumulated ch n)
      /\ (forall j, k <= j < n -> (elapsed_at ch j < max_wait)%N)
      /\ (forall j, k <= j < n -> ready ch j <> None -> S j < n ->
            prompt (_strip_ansi_codes (accumulated ch (S j))) = false)
      /\ ((max_wait <= elapsed_at ch n)%N
          \/ (k < n /\ ready ch (n - 1) <> None
              /\ prompt (_strip_ansi_codes (accumulated ch n)) = true)).
Proof.
  induction fuel as [|fuel IH]; intros k Hpos Hbudget; [lia|].
  simpl. destruct (N.ltb_spec (elapsed_at ch k) max_wait) as [Hlt | Hge].
  - assert (Hfuel : 0 < fuel).
    { destruct fuel; [simpl in Hbudget; lia | lia]. }
    assert (Hnext : (max_wait <= elapsed_at ch (S k)
                               + poll_interval * N.of_nat (fuel - 1))%N).
    { pose proof (elapsed_at_step ch k). simpl in Hbudget.
      replace (fuel - 0) with (S (fuel - 1)) in Hbudget by lia.
      rewrite Nat2N.inj_succ in Hbudget. lia. }
    destruct (IH (S k) Hfuel Hnext) as (n & Hn & Hread & Hbefore & Hquiet & Hend).
    change (elapsed_at ch (S k)) with (elapsed_at ch k + poll_interval + lag ch k)%N in Hread.
    assert (Hacc : accumulated ch (S k)
                   = accumulated ch k ++ match ready ch k with
                                         | Some chunk => chunk
                                         | None => []
                                         end) by reflexivity.
    destruct (ready ch k) as [chunk|] eqn:Hready.
    + rewrite <- Hacc.
      destruct (prompt (_strip_ansi_codes (accumulated ch (S k)))) eqn:Hp.
      * exists (S k). split; [lia|]. split; [reflexivity|].
        split; [intros j Hj; replace j with k by lia; exact Hlt|].
        split; [intros j Hj _ Hlast; lia|].
        right. split; [lia|]. replace (S k - 1) with k by lia.
        rewrite Hready. split; [discriminate | exact Hp].
      * exists n. split; [lia|]. split; [exact Hread|].
        split.
        { intros j Hj. destruct (Nat.eq_dec j k) as [->|Hne]; [exact Hlt|].
          apply Hbefore. lia. }
        split.
        { intros j Hj Hr Hlast. destruct (Nat.eq_dec j k) as [->|Hne]; [exact Hp|].
          apply Hquiet; [lia | exact Hr | exact Hlast]. }
        destruct Hend as [Hend | (Hk & Hr & Hp')]; [left; exact Hend|].
        right. split; [lia|]. split; assumption.
    + rewrite app_nil_r in Hacc. rewrite Hacc in Hread.
      exists n. split; [lia|]. split; [exact Hread|].
      split.
      { intros j Hj. destruct (Nat.eq_dec j k) as [->|Hne]; [exact Hlt|].
        apply Hbefore. lia. }
      split.
      { intros j Hj Hr Hlast. destruct (Nat.eq_dec j k) as [->|Hne]; [congruence|].
        apply Hquiet; [lia | exact Hr | exact Hlast]. }
      destruct Hend as [Hend | (Hk & Hr & Hp')]; [left; exact Hend|].
      right. split; [lia|]. split; assumption.
  - exists k. split; [lia|]. split; [reflexivity|].
    split; [intros j Hj; lia|]. split; [intros j Hj; lia|]. left. exact Hge.
Qed.

(** X8.  The read of [_send_command] always returns: 301 iterations are
    enough on every channel.  What it returns is the buffer accumulated
    after some number [n <= 300] of polls, and it stops there for one of two
    reasons: the clock test found the 30 s elapsed, or the chunk just
    received made the normalized buffer end in a prompt.  It stops at the
    first such poll: before it the deadline had not passed and no received
    chunk had completed a prompt. *)
Theorem send_command_read_returns (ch : channel) (fuel : nat) :
  301 <= fuel ->
  exists n, n <= 300
    /\ collect_output fuel ch true = Some (accumulated ch n)
    /\ (forall j, j < n -> (elapsed_at ch j < max_wait)%N)
    /\ (forall j, S j < n -> ready ch j <> None ->
          prompt (_strip_ansi_codes (accumulated ch (S j))) = false)
    /\ ((max_wait <= elapsed_at ch n)%N
        \/ (0 < n /\ ready ch (n - 1) <> None
            /\ prompt (_strip_ansi_codes (accumulated ch n)) = true)).
Proof.
  intros Hfuel.
  destruct (read_loop_result ch 301 0) as (n & Hn & Hread & Hbefore & Hquiet & Hend).
  - lia.
  - vm_compute. discriminate.
  - exists n. split; [lia|].
    split; [unfold collect_output; apply (read_loop_more_fuel ch 301); assumption|].
    split; [intros j Hj; apply Hbefore; lia|].
    split; [intros j Hj Hr; apply Hquiet; [lia | exact Hr | exact Hj]|].
    exact Hend.
Qed.

Lemma send_command_read_returns_witness :
  exists n, n <= 300
    /\ collect_output 400 silent_after_first true
       = Some (accumulated silent_after_first n).
Proof.
  destruct (send_command_read_returns silent_after_first 400) as (n & Hn & H & _);
    [lia|]. exists n. split; assumption.
Defined.

(** ** Lines and characters *)

Lemma In_split_lines (s l : text) (c : ascii) :
  In l (split_lines s) -> In c l -> In c s.
Proof.
  revert l. induction s as [|a s IH]; intros l Hl Hc; simpl in Hl.
  - destruct Hl as [<- | []]. exact Hc.
  - destruct (ascii_eqb a LF).
    + destruct Hl as [<- | Hl]; [destruct Hc | right; eauto].
    + destruct (split_lines s) as [|l0 ls] eqn:E.
      * destruct Hl as [<- | []]. destruct Hc as [-> | []]. left. reflexivity.
      * destruct Hl as [<- | Hl].
        -- destruct Hc as [-> | Hc]; [left; reflexivity | right].
           apply (IH l0); [left; reflexivity | exact Hc].
        -- right. apply (IH l); [right; exact Hl | exact Hc].
Qed.

Lemma In_join_lines (ls : list text) (c : ascii) :
  In c (join_lines ls) -> c = LF \/ exists l, In l ls /\ In c l.
Proof.
  induction ls as [|l ls IH]; simpl; [tauto|].
  destruct ls as [|l' ls].
  - intros H. right. exists l. split; [left; reflexivity | exact H].
  - intros H. apply in_app_or in H. destruct H as [H | [<- | H]].
    + right. exists l. split; [left; reflexivity | exact H].
    + left. reflexivity.
    + destruct (IH H) as [-> | (l0 & Hl0 & Hc)]; [left; reflexivity|].
      right. exists l0. split; [right; exact Hl0 | exact Hc].
Qed.

Lemma contains_char (c : ascii) (s : text) : contains [c] s = true <-> In c s.
Proof.
  rewrite contains_spec. split.
  - intros (pre & post & ->). apply in_or_app. right. left. reflexivity.
  - intros H. apply in_split in H. destruct H as (pre & post & ->).
    exists pre, post. reflexivity.
Qed.

Lemma startswith_char (c : ascii) (s : text) : startswith [c] s = true -> In c s.
Proof.
  intros H. apply startswith_spec in H. destruct H as [post ->]. left. reflexivity.
Qed.

(** X9.  [send_config] never reports a change for a diff that holds neither
    a [+] nor a [-]: whatever its lines name, such a diff is discarded. *)
Theorem has_changes_needs_a_sign (diff : text) :
  has_changes diff = true ->
  contains (lit "+") diff || contains (lit "-") diff = true.
Proof.
  unfold has_changes. destruct diff as [|c0 diff0]; [discriminate|].
  set (diff := c0 :: diff0). intros H.
  apply existsb_exists in H. destruct H as (line & Hline & H).
  apply orb_true_iff in H. destruct H as [H | H].
  - unfold diff_marker in H. apply andb_true_iff in H. destruct H as [H _].
    apply orb_true_iff. apply orb_true_iff in H.
    destruct H as [H | H]; [left | right];
      apply contains_char, (In_split_lines diff line); auto;
      apply In_strip, startswith_char; exact H.
  - apply andb_true_iff in H. tauto.
Qed.

Lemma has_changes_needs_a_sign_witness :
  contains (lit "+") (lit "+ set / system name host-name srl1")
  || contains (lit "-") (lit "+ set / system name host-name srl1") = true.
Proof.
  apply (has_changes_needs_a_sign (lit "+ set / system name host-name srl1")).
  reflexivity.
Defined.

(** X10.  A cleaned diff with a line that names [network-instance] always
    counts as a change, with or without a diff marker: the hyphen of the
    word is itself taken for a sign. *)
Theorem has_changes_network_instance (diff line : text) :
  In line (split_lines diff) ->
  contains (lit "network-instance") line = true ->
  has_changes diff = true.
Proof.
  intros Hline Hname.
  assert (Hdash : In "-" diff).
  { apply (In_split_lines diff line); [exact Hline|].
    apply contains_spec in Hname. destruct Hname as (pre & post & ->).
    apply in_or_app. right. apply in_or_app. left. vm_compute. tauto. }
  unfold has_changes. destruct diff as [|c0 diff0]; [destruct Hdash|].
  apply existsb_exists. exists line. split; [exact Hline|].
  apply orb_true_iff. right. apply andb_true_iff. split.
  - unfold names_domain. cbn [existsb]. rewrite Hname. apply orb_true_r.
  - apply orb_true_iff. right. apply contains_char. exact Hdash.
Qed.

Lemma has_changes_network_instance_witness :
  has_changes (lit "    network-instance default {" ++ LF :: lit "    }") = true.
Proof.
  apply (has_changes_network_instance _ (lit "    network-instance default {"));
    [left; reflexivity | reflexivity].
Defined.

(** ** Trimming *)

Lemma lstrip_head (s : text) :
  match lstrip s with
  | [] => True
  | h :: _ => isspace h = false
  end.
Proof.
  induction s as [|c s IH]; simpl; [exact I|].
  destruct (isspace c) eqn:E; [exact IH | exact E].
Qed.

Lemma lstrip_fixed (h : ascii) (r : text) : isspace h = false -> lstrip (h :: r) = h :: r.
Proof. simpl. intros ->. reflexivity. Qed.

Lemma lstrip_idempotent (s : text) : lstrip (lstrip s) = lstrip s.
Proof.
  pose proof (lstrip_head s) as H. destruct (lstrip s) as [|h r]; [reflexivity|].
  apply lstrip_fixed, H.
Qed.

Lemma lstrip_snoc (a : text) (h : ascii) :
  isspace h = false -> lstrip (a ++ [h]) = lstrip a ++ [h].
Proof.
  intros Hh. induction a as [|c a IH]; simpl; [rewrite Hh; reflexivity|].
  destruct (isspace c); [exact IH | reflexivity].
Qed.

Lemma rstrip_cons (h : ascii) (r : text) :
  isspace h = false -> rstrip (h :: r) = h :: rstrip r.
Proof.
  intros Hh. unfold rstrip. simpl. rewrite (lstrip_snoc _ _ Hh), rev_app_distr.
  reflexivity.
Qed.

Lemma rstrip_idempotent (s : text) : rstrip (rstrip s) = rstrip s.
Proof. unfold rstrip. rewrite rev_involutive, lstrip_idempotent. reflexivity. Qed.

Lemma strip_head (s : text) :
  match strip s with
  | [] => True
  | h :: _ => isspace h = false
  end.
Proof.
  unfold strip. pose proof (lstrip_head s) as H.
  destruct (lstrip s) as [|h r]; [exact I|]. rewrite (rstrip_cons h r H). exact H.
Qed.

Lemma strip_idempotent (s : text) : strip (strip s) = strip s.
Proof.
  pose proof (strip_head s) as H. unfold strip at 1.
  destruct (strip s) as [|h r] eqn:E; [reflexivity|].
  rewrite (lstrip_fixed h r H), <- E. unfold strip. apply rstrip_idempotent.
Qed.

(** X11.  Whatever the device printed, the text [_clean_diff_output]
    returns has no white space at either end and no control character, and
    when it is not empty it holds an alphanumeric character or one of
    [+ - { } [ ]]. *)
Theorem clean_diff_output_shape (diff_output : text) :
  let result := _clean_diff_output diff_output in
  strip result = result
  /\ clean result
  /\ (result <> [] -> existsb significant result = true).
Proof.
  cbv zeta. unfold _clean_diff_output. cbv zeta. fold (residue diff_output).
  assert (Hclean : clean (strip (residue diff_output))).
  { apply List.Forall_forall. intros c Hc. apply In_strip in Hc.
    apply In_join_lines in Hc. destruct Hc as [-> | (l & Hl & Hc)]; [reflexivity|].
    apply List.filter_In in Hl. destruct Hl as [Hl _].
    pose proof (strip_ansi_codes_is_clean diff_output) as H.
    exact (proj1 (List.Forall_forall _ _) H c (In_split_lines _ _ _ Hl Hc)). }
  destruct (strip (residue diff_output)) as [|h r] eqn:E.
  - repeat split; [constructor | congruence].
  - destruct (existsb significant (h :: r)) eqn:Es; cbn [negb].
    + rewrite <- E at 1 2. rewrite strip_idempotent, E.
      repeat split; [exact Hclean | intros _; exact Es].
    + repeat split; [constructor | congruence].
Qed.

(** ** The drift comparison *)

Lemma sorted_elements_nil (X : gset text) : Compare.sorted (elements X) = [] <-> X = ∅.
Proof.
  split.
  - intros H. apply set_eq. intros x.
    rewrite <- elem_of_elements, <- elem_of_sorted, H. set_solver.
  - intros ->. apply sorted_elements_empty.
Qed.

Lemma compare_same_sets (intended : list text) (config_path : text) (keep : bool)
    (observed : text) :
  Compare.statement_set intended = Compare.statement_set (split_lines observed) ->
  let r := Compare.compare intended config_path keep observed in
  Compare.has_drift r = false /\ Compare.missing r = [] /\ Compare.extra r = []
  /\ Compare.diff r = [].
Proof.
  intros H. cbv zeta. unfold Compare.compare. cbn. rewrite H, difference_diag_L.
  rewrite nonempty_empty, sorted_elements_empty. repeat split.
Qed.

(** X12.  Round trip: a list of lines compared with the text made of the
    same lines, one per line, shows no drift, nothing missing, nothing
    extra and an empty diff. *)
Theorem compare_round_trip (lines : list text) (config_path : text) (keep : bool) :
  forallb no_lf lines = true ->
  let r := Compare.compare lines config_path keep (join_lines lines) in
  Compare.has_drift r = false /\ Compare.missing r = [] /\ Compare.extra r = []
  /\ Compare.diff r = [].
Proof.
  intros H. apply compare_same_sets. destruct lines as [|l ls]; [reflexivity|].
  rewrite (split_join_lines l ls H). reflexivity.
Qed.

Lemma compare_round_trip_witness :
  Compare.has_drift
    (Compare.compare [admin_enable; lit "# uplink"; lit "  set / system name host-name srl1 "]
       (lit "/") false
       (join_lines [admin_enable; lit "# uplink"; lit "  set / system name host-name srl1 "]))
  = false.
Proof.
  apply (compare_round_trip
           [admin_enable; lit "# uplink"; lit "  set / system name host-name srl1 "]
           (lit "/") false).
  reflexivity.
Defined.

(** X13.  The report depends on the intended lines only through the set of
    their trimmed forms: the order of the lines, repeated lines and the
    white space around a line make no difference. *)
Theorem compare_ignores_order_and_spacing
    (intended intended' : list text) (config_path : text) (keep : bool) (observed : text) :
  (forall x, In x (map strip intended) <-> In x (map strip intended')) ->
  Compare.compare intended config_path keep observed
  = Compare.compare intended' config_path keep observed.
Proof.
  intros H.
  assert (E : Compare.statement_set intended = Compare.statement_set intended').
  { apply set_eq. intros x. unfold Compare.statement_set.
    rewrite !elem_of_list_to_set, !list_elem_of_In, !List.filter_In, H. reflexivity. }
  unfold Compare.compare. cbv zeta. rewrite E. reflexivity.
Qed.

Lemma compare_ignores_order_and_spacing_witness :
  Compare.compare [admin_enable; lit " set / system name host-name srl1"; admin_enable]
    (lit "/") false []
  = Compare.compare [lit "set / system name host-name srl1  "; admin_enable]
      (lit "/") false [].
Proof.
  apply compare_ignores_order_and_spacing. intros x. vm_compute. tauto.
Defined.

Lemma join_lines_nil (ls : list text) :
  join_lines ls = [] -> Forall (fun l => l <> []) ls -> ls = [].
Proof.
  destruct ls as [|l ls]; [reflexivity|]. intros H Hne.
  inversion Hne as [|? ? Hl _]; subst. exfalso. apply Hl.
  simpl in H. destruct ls; [exact H|]. apply app_eq_nil in H. tauto.
Qed.

(** X14.  The diff text of a report is empty exactly when the report shows
    no drift. *)
Theorem compare_diff_empty_iff_no_drift
    (intended : list text) (config_path : text) (keep : bool) (observed : text) :
  let r := Compare.compare intended config_path keep observed in
  Compare.diff r = [] <-> Compare.has_drift r = false.
Proof.
  cbv zeta. unfold Compare.compare. cbn.
  set (A := Compare.statement_set intended ∖ Compare.statement_set (split_lines observed)).
  set (B := Compare.statement_set (split_lines observed) ∖ Compare.statement_set intended).
  unfold Compare.nonempty. split.
  - intros H. apply join_lines_nil in H.
    + apply app_eq_nil in H. destruct H as [HA HB].
      apply map_eq_nil in HA, HB. apply sorted_elements_nil in HA, HB.
      rewrite HA, HB. reflexivity.
    + apply List.Forall_app. split; apply List.Forall_forall; intros l Hl;
        apply List.in_map_iff in Hl; destruct Hl as (x & <- & _); discriminate.
  - intros H. apply orb_false_iff in H. destruct H as [HA HB].
    apply negb_false_iff, bool_decide_eq_true in HA, HB.
    rewrite HA, HB, sorted_elements_empty. reflexivity.
Qed.

(** X15.  Every line reported as missing or extra is a trimmed statement
    that begins with [set ], and no line is reported on both sides. *)
Theorem compare_reports_statements
    (intended : list text) (config_path : text) (keep : bool) (observed : text) :
  let r := Compare.compare intended config_path keep observed in
  (forall x, In x (Compare.missing r ++ Compare.extra r) ->
     startswith (lit "set ") x = true /\ strip x = x)
  /\ (forall x, In x (Compare.missing r) -> ~ In x (Compare.extra r)).
Proof.
  cbv zeta. unfold Compare.compare. cbn. split.
  - intros x Hx. apply in_app_or in Hx.
    assert (H : x ∈ Compare.statement_set intended
                \/ x ∈ Compare.statement_set (split_lines observed)).
    { destruct Hx as [Hx | Hx]; apply list_elem_of_In in Hx;
        rewrite elem_of_sorted, elem_of_elements, elem_of_difference in Hx; tauto. }
    destruct H as [H | H]; apply elem_of_statement_set in H;
      destruct H as (line & _ & -> & Hst); split; auto using strip_idempotent.
  - intros x Hm He. apply list_elem_of_In in Hm, He.
    rewrite elem_of_sorted, elem_of_elements, elem_of_difference in Hm, He. tauto.
Qed.

(** ** What the normalizer keeps *)

Lemma re_sub_from_sublist (m : text -> option nat) (s : text) :
  forall k, re_sub_from m k s `sublist_of` s.
Proof.
  induction s as [|c s IH]; intros k; simpl; [constructor|].
  destruct k as [|k]; [|apply sublist_cons, IH].
  destruct (m (c :: s)) as [[|n]|];
    [apply sublist_skip, IH | apply sublist_cons, IH | apply sublist_skip, IH].
Qed.

Lemma re_sub_sublist (m : text -> option nat) (s : text) : re_sub m s `sublist_of` s.
Proof. apply re_sub_from_sublist. Qed.

(** X16.  The normalizer only deletes: its output is the input with some
    characters left out, in the same order, so it is never longer than the
    input and holds no character the input did not hold. *)
Theorem strip_ansi_codes_only_deletes (x : text) :
  _strip_ansi_codes x `sublist_of` x
  /\ length (_strip_ansi_codes x) <= length x
  /\ (forall c, In c (_strip_ansi_codes x) -> In c x).
Proof.
  assert (H : _strip_ansi_codes x `sublist_of` x).
  { unfold _strip_ansi_codes. cbv zeta.
    repeat (etransitivity; [apply re_sub_sublist|]). reflexivity. }
  split; [exact H|]. split; [apply sublist_length, H|].
  intros c Hc. apply list_elem_of_In. apply list_elem_of_In in Hc.
  eapply elem_of_sublist; eassumption.
Qed.

Lemma param_not_LF (c : ascii) : is_param c = true -> ascii_eqb c LF = false.
Proof. by_cases_on_char c. Qed.

Lemma letter_not_LF (c : ascii) : is_letter c = true -> ascii_eqb c LF = false.
Proof. by_cases_on_char c. Qed.

Lemma control_not_LF (c : ascii) : is_control c = true -> ascii_eqb c LF = false.
Proof. by_cases_on_char c. Qed.

Lemma params_then_letter_lf_safe : lf_safe params_then_letter.
Proof.
  intros s. induction s as [|c s IH]; intros n H; simpl in H; [discriminate|].
  destruct (is_param c) eqn:Hp.
  - destruct (params_then_letter s) as [n'|]; [|discriminate].
    injection H as <-. simpl. rewrite (param_not_LF c Hp). apply (IH n' eq_refl).
  - destruct (is_letter c) eqn:Hl; [|discriminate].
    injection H as <-. simpl. rewrite (letter_not_LF c Hl).
    destruct s; reflexivity.
Qed.

Lemma no_lf_literal_then (p rest : text) (k : nat) :
  no_lf p = true -> no_lf (firstn k rest) = true ->
  no_lf (firstn (length p + k) (p ++ rest)) = true.
Proof.
  intros Hp Hr. induction p as [|c p IH]; simpl in *; [exact Hr|].
  apply andb_true_iff in Hp. destruct Hp as [Hc Hp]. rewrite Hc. apply IH, Hp.
Qed.

Lemma introducer_lf_safe (p : text) (s : text) (n : nat) :
  no_lf p = true ->
  (exists rest k, s = p ++ rest /\ n = length p + k /\ params_then_letter rest = Some k) ->
  no_lf (firstn n s) = true.
Proof.
  intros Hp (rest & k & -> & -> & H). apply no_lf_literal_then; [exact Hp|].
  apply params_then_letter_lf_safe, H.
Qed.

Lemma csi_shape (s : text) (n : nat) :
  csi s = Some n ->
  exists p rest k,
    (p = ESC :: lit "[?" \/ p = ESC :: lit "[")
    /\ s = p ++ rest /\ n = length p + k /\ params_then_letter rest = Some k.
Proof.
  unfold csi. intros H.
  destruct s as [|e [|b s]]; try discriminate.
  destruct (ascii_dec b "[") as [->|Hb].
  - destruct s as [|q s].
    + destruct (ascii_eqb e ESC) eqn:He; [|discriminate].
      apply ascii_eqb_eq in He. subst e. simpl in H. discriminate.
    + destruct (ascii_dec q "?") as [->|Hq].
      * destruct (ascii_eqb e ESC) eqn:He; [|discriminate].
        apply ascii_eqb_eq in He. subst e.
        destruct (params_then_letter s) as [k|] eqn:Hk; [|discriminate].
        injection H as <-. exists (ESC :: lit "[?"), s, k. auto.
      * assert (H' : (if ascii_eqb e ESC
                      then option_map (fun n => 2 + n) (params_then_letter (q :: s))
                      else None) = Some n).
        { destruct q as [[] [] [] [] [] [] [] []]; try exact H; congruence. }
        destruct (ascii_eqb e ESC) eqn:He; [|discriminate].
        apply ascii_eqb_eq in He. subst e.
        destruct (params_then_letter (q :: s)) as [k|] eqn:Hk; [|discriminate].
        injection H' as <-. exists (ESC :: lit "["), (q :: s), k. auto.
  - exfalso. destruct b as [[] [] [] [] [] [] [] []]; try discriminate; congruence.
Qed.

Lemma csi_lf_safe : lf_safe csi.
Proof.
  intros s n H. apply csi_shape in H.
  destruct H as (p & rest & k & [-> | ->] & Hs & Hn & Hk).
  - apply (introducer_lf_safe (ESC :: lit "[?")); eauto.
  - apply (introducer_lf_safe (ESC :: lit "[")); eauto.
Qed.

Lemma charset_lf_safe : lf_safe charset.
Proof.
  intros s n H. unfold charset in H.
  destruct s as [|e [|b s]]; try discriminate.
  destruct (ascii_dec b "(") as [->|Hb].
  - destruct (ascii_eqb e ESC) eqn:He; [|discriminate].
    apply ascii_eqb_eq in He. subst e.
    destruct (params_then_letter s) as [k|] eqn:Hk; [|discriminate].
    injection H as <-. apply (introducer_lf_safe (ESC :: lit "(")); eauto.
  - exfalso. destruct b as [[] [] [] [] [] [] [] []]; try discriminate; congruence.
Qed.

Lemma until_bel_lf_safe : lf_safe until_bel.
Proof.
  intros s. induction s as [|c s IH]; intros n H; simpl in H; [discriminate|].
  destruct (ascii_eqb c BEL) eqn:Hb.
  - injection H as <-. apply ascii_eqb_eq in Hb. subst c. destruct s; reflexivity.
  - destruct (ascii_eqb c LF) eqn:Hl; [discriminate|].
    destruct (until_bel s) as [n'|]; [|discriminate].
    injection H as <-. simpl. rewrite Hl. apply (IH n' eq_refl).
Qed.

Lemma osc_lf_safe : lf_safe osc.
Proof.
  intros s n H. unfold osc in H.
  destruct s as [|e [|b s]]; try discriminate.
  destruct (ascii_dec b "]") as [->|Hb].
  - destruct (ascii_eqb e ESC) eqn:He; [|discriminate].
    apply ascii_eqb_eq in He. subst e.
    destruct (until_bel s) as [k|] eqn:Hk; [|discriminate].
    injection H as <-. apply (no_lf_literal_then (ESC :: lit "]") s k eq_refl).
    apply until_bel_lf_safe, Hk.
  - exfalso. destruct b as [[] [] [] [] [] [] [] []]; try discriminate; congruence.
Qed.

Lemma esc_shorthand_lf_safe : lf_safe esc_shorthand.
Proof.
  intros s n H. unfold esc_shorthand in H.
  destruct s as [|e [|c s]]; try discriminate.
  destruct (ascii_eqb e ESC) eqn:He; [|discriminate].
  apply ascii_eqb_eq in He. subst e. cbn [andb] in H.
  destruct (ascii_eqb c "=" || ascii_eqb c ">") eqn:Hc; [|discriminate].
  injection H as <-.
  assert (Hl : ascii_eqb c LF = false).
  { destruct (ascii_eqb c LF) eqn:E; [|reflexivity].
    apply ascii_eqb_eq in E. subst c. discriminate Hc. }
  simpl. rewrite Hl. destruct s; reflexivity.
Qed.

Lemma esc_literal_lf_safe (p : string) : no_lf (lit p) = true -> lf_safe (esc_literal p).
Proof.
  intros Hp s n H. unfold esc_literal in H.
  destruct (startswith (ESC :: lit p) s) eqn:E; [|discriminate].
  injection H as <-. apply startswith_spec in E. destruct E as [post ->].
  replace (S (length (lit p))) with (length (ESC :: lit p) + 0) by (simpl; lia).
  apply no_lf_literal_then; [exact Hp | reflexivity].
Qed.

Lemma bracketed_paste_lf_safe : lf_safe bracketed_paste.
Proof.
  intros s n H. unfold bracketed_paste in H.
  destruct (esc_literal "[?2004h" s) as [k|] eqn:E.
  - injection H as <-. apply (esc_literal_lf_safe "[?2004h" eq_refl s k E).
  - apply (esc_literal_lf_safe "[?2004l" eq_refl s n H).
Qed.

Lemma control_lf_safe : lf_safe control.
Proof.
  intros s n H. unfold control in H. destruct s as [|c s]; [discriminate|].
  destruct (is_control c) eqn:Hc; [|discriminate]. injection H as <-.
  simpl. rewrite (control_not_LF c Hc). destruct s; reflexivity.
Qed.

Lemma re_sub_from_line_feeds (m : text -> option nat) (s : text) :
  lf_safe m ->
  forall k, no_lf (firstn k s) = true ->
            line_feeds (re_sub_from m k s) = line_feeds s.
Proof.
  intros Hm. unfold line_feeds. induction s as [|c s IH]; intros k Hk; [reflexivity|].
  simpl. destruct k as [|k].
  - destruct (m (c :: s)) as [[|n]|] eqn:E.
    + simpl. destruct (ascii_eqb c LF); simpl; rewrite (IH 0); reflexivity.
    + pose proof (Hm _ _ E) as Hs. simpl in Hs.
      apply andb_true_iff in Hs. destruct Hs as [Hc Hs].
      apply negb_true_iff in Hc. rewrite Hc. apply IH, Hs.
    + simpl. destruct (ascii_eqb c LF); simpl; rewrite (IH 0); reflexivity.
  - simpl in Hk. apply andb_true_iff in Hk. destruct Hk as [Hc Hk].
    apply negb_true_iff in Hc. rewrite Hc. apply IH, Hk.
Qed.

Lemma re_sub_line_feeds (m : text -> option nat) (s : text) :
  lf_safe m -> line_feeds (re_sub m s) = line_feeds s.
Proof. intros Hm. apply re_sub_from_line_feeds; [exact Hm | reflexivity]. Qed.

Lemma split_lines_length (s : text) : length (split_lines s) = S (line_feeds s).
Proof.
  unfold line_feeds. induction s as [|c s IH]; [reflexivity|]. simpl.
  destruct (ascii_eqb c LF); simpl; [rewrite IH; reflexivity|].
  destruct (split_lines s); simpl in *; [discriminate | exact IH].
Qed.

(** X17.  The normalizer never removes a line feed: the normalized text
    has as many lines as the raw text, so an escape sequence cannot join
    two lines of device output. *)
Theorem strip_ansi_codes_keeps_lines (x : text) :
  line_feeds (_strip_ansi_codes x) = line_feeds x
  /\ length (split_lines (_strip_ansi_codes x)) = length (split_lines x).
Proof.
  assert (H : line_feeds (_strip_ansi_codes x) = line_feeds x).
  { unfold _strip_ansi_codes. cbv zeta.
    rewrite (re_sub_line_feeds control _ control_lf_safe).
    rewrite (re_sub_line_feeds bracketed_paste _ bracketed_paste_lf_safe).
    rewrite (re_sub_line_feeds status_report _ (esc_literal_lf_safe "[6n" eq_refl)).
    rewrite (re_sub_line_feeds charset _ charset_lf_safe).
    rewrite (re_sub_line_feeds esc_shorthand _ esc_shorthand_lf_safe).
    rewrite (re_sub_line_feeds osc _ osc_lf_safe).
    apply (re_sub_line_feeds csi _ csi_lf_safe). }
  split; [exact H|]. rewrite !split_lines_length, H. reflexivity.
Qed.

(** X18.  The texts the normalizer leaves as they are are exactly the
    texts without a control character (the class [\x00-\x08], [\x0b],
    [\x0c], [\x0e-\x1f], to which [ESC] and [BEL] belong). *)
Theorem strip_ansi_codes_fixed_points (x : text) :
  _strip_ansi_codes x = x <-> clean x.
Proof.
  split.
  - intros H. rewrite <- H. apply strip_ansi_codes_is_clean.
  - apply strip_ansi_codes_clean.
Qed.

(** ** Operational commands *)

Lemma execute_command_connected (command : text) (d : device) (log : list text) :
  execute_command command d {| connected := true; sent := log |}
  = (Returned (command_body (respond d (log ++ [command]))),
     {| connected := true; sent := log ++ [command] |}).
Proof. reflexivity. Qed.

Lemma execute_command_ok (command : text) (d : device) (s : session) :
  connected s || reachable d = true ->
  execute_command command d s
  = (Returned (command_body (respond d (sent s ++ [command]))),
     {| connected := true; sent := sent s ++ [command] |}).
Proof.
  intros Hconn. unfold execute_command.
  unfold bind at 1. rewrite (connect_ok d s Hconn).
  unfold bind. rewrite send_command_connected. reflexivity.
Qed.

Lemma execute_each_connected (d : device) (commands : list text) :
  forall (results log : list text),
    execute_each commands results d {| connected := true; sent := log |}
    = (Returned (results ++ bodies d log commands),
       {| connected := true; sent := log ++ commands |}).
Proof.
  induction commands as [|c commands IH]; intros results log; simpl.
  - unfold ret. rewrite !app_nil_r. reflexivity.
  - unfold bind. rewrite execute_command_connected, IH, <- !app_assoc. reflexivity.
Qed.

Lemma bodies_length (d : device) (commands : list text) :
  forall log, length (bodies d log commands) = length commands.
Proof.
  induction commands as [|c commands IH]; intros log; simpl; [reflexivity|].
  rewrite IH. reflexivity.
Qed.

(** X19.  [execute_commands] sends the commands in their order, one
    answer read before the next command goes out, and returns one body per
    command, in the same order.  What the device answers is never an
    error for it: an error text comes back as the body of its command. *)
Theorem execute_commands_in_order (command : text) (commands : list text)
    (d : device) (s : session) :
  connected s || reachable d = true ->
  execute_commands (command :: commands) d s
  = (Returned (bodies d (sent s) (command :: commands)),
     {| connected := true; sent := sent s ++ command :: commands |})
  /\ length (bodies d (sent s) (command :: commands)) = length (command :: commands).
Proof.
  intros Hconn. split; [|apply bodies_length].
  unfold execute_commands. cbn [execute_each].
  unfold bind at 1. rewrite (execute_command_ok command d s Hconn).
  rewrite execute_each_connected. cbn [app bodies]. rewrite <- app_assoc.
  reflexivity.
Qed.

Lemma execute_commands_in_order_witness :
  execute_commands [lit "show version"; lit "show bogus"] erring_device fresh
  = (Returned [lit "Error: invalid command"; lit "Error: invalid command"],
     {| connected := true; sent := [lit "show version"; lit "show bogus"] |}).
Proof.
  apply (execute_commands_in_order (lit "show version") [lit "show bogus"]
           erring_device fresh).
  reflexivity.
Defined.

(** X20.  Once candidate mode is entered, [get_config] sends one [info]
    command, chosen by the format alone ([info flat], [info json], or
    [info] for any other format), and then [quit]; the [source] argument
    plays no part, and neither [commit now] nor [discard now] is sent.  The
    text it returns has no white space at either end and no control
    character. *)
Theorem get_config_sends_one_info (source format : text) (d : device) (s : session) :
  connected s || reachable d = true ->
  let log := sent s ++ [lit "enter candidate"] in
  mentions "candidate" (respond d log) = true ->
  exists config : text,
    get_config source format d s
    = (Returned config,
       {| connected := true; sent := log ++ [info_command format; lit "quit"] |})
    /\ strip config = config
    /\ clean config.
Proof.
  intros Hconn log Hcand. unfold get_config.
  unfold bind at 1. rewrite (connect_ok d s Hconn).
  unfold bind at 1. rewrite (enter_candidate_acknowledged d (sent s) Hcand).
  fold log. fold (info_command format). cbv zeta.
  unfold bind at 1. rewrite send_command_connected.
  unfold bind, exit_candidate_mode, bind, ret. rewrite send_command_connected.
  rewrite <- !app_assoc. cbn [app].
  eexists. split; [reflexivity|]. split; [apply strip_idempotent|].
  apply List.Forall_forall. intros c Hc. apply In_strip in Hc.
  apply In_join_lines in Hc. destruct Hc as [-> | (l & Hl & Hc)]; [reflexivity|].
  apply List.filter_In in Hl. destruct Hl as [Hl _].
  pose proof (strip_ansi_codes_is_clean (respond d (log ++ [info_command format]))) as H.
  exact (proj1 (List.Forall_forall _ _) H c (In_split_lines _ _ _ Hl Hc)).
Qed.

Lemma get_config_sends_one_info_witness :
  exists config : text,
    get_config (lit "running") (lit "hierarchical") unchanged_device fresh
    = (Returned config,
       {| connected := true;
          sent := [lit "enter candidate"; lit "info"; lit "quit"] |})
    /\ strip config = config
    /\ clean config.
Proof.
  apply (get_config_sends_one_info (lit "running") (lit "hierarchical")
           unchanged_device fresh); reflexivity.
Defined.

(** ** The syntax check of srlinux_validate *)

Lemma lstrip_spaces (spaces rest : text) :
  forallb isspace spaces = true -> lstrip (spaces ++ rest) = lstrip rest.
Proof.
  induction spaces as [|c spaces IH]; simpl; intros H; [reflexivity|].
  apply andb_true_iff in H. destruct H as [-> H]. apply IH, H.
Qed.

Lemma lstrip_decompose (s : text) :
  exists spaces, forallb isspace spaces = true /\ s = spaces ++ lstrip s.
Proof.
  induction s as [|c s (spaces & Hs & E)]; [exists []; split; reflexivity|].
  simpl. destruct (isspace c) eqn:Hc.
  - exists (c :: spaces). simpl. rewrite Hc, Hs. split; [reflexivity|].
    f_equal. exact E.
  - exists []. split; reflexivity.
Qed.

Lemma keyword_space_path (keyword r : text) :
  Validate.spaces_then_slash (" " :: r) = true ->
  exists spaces rest,
    forallb isspace spaces = true /\ keyword ++ " " :: r = keyword ++ " " :: spaces ++ "/" :: rest.
Proof.
  unfold Validate.spaces_then_slash. intros H.
  apply andb_true_iff in H. destruct H as [_ H].
  change (lstrip (" " :: r)) with (lstrip r) in H.
  apply startswith_spec in H. destruct H as [rest H].
  destruct (lstrip_decompose r) as (spaces & Hs & E).
  exists spaces, rest. split; [exact Hs|]. rewrite E at 1. rewrite H. reflexivity.
Qed.

Lemma passes_syntax_checks (cmd : text) :
  strip cmd <> [] ->
  startswith (lit "#") (strip cmd) = false ->
  (Validate.has_prefix (strip cmd) && Validate.has_path (strip cmd) = true
   <-> passes_syntax cmd).
Proof.
  intros Hne Hc. unfold passes_syntax. split.
  - intros H. right. right. apply andb_true_iff in H. destruct H as [Hp Hpath].
    unfold Validate.has_prefix in Hp. cbn [existsb] in Hp. rewrite orb_false_r in Hp.
    apply orb_true_iff in Hp. destruct Hp as [Hp | Hp];
      apply startswith_spec in Hp; destruct Hp as [r Hr]; rewrite Hr in *;
      unfold Validate.has_path in Hpath; cbn in Hpath.
    + rewrite orb_false_r in Hpath.
      destruct (keyword_space_path (lit "set") r Hpath) as (spaces & rest & Hs & E).
      exists (lit "set"), spaces, rest. auto.
    + destruct (keyword_space_path (lit "delete") r Hpath) as (spaces & rest & Hs & E).
      exists (lit "delete"), spaces, rest. auto.
  - intros [H | [H | (keyword & spaces & rest & Hk & Hs & E)]];
      [contradiction | congruence |].
    assert (Hl : lstrip (" " :: spaces ++ "/" :: rest) = "/" :: rest).
    { change (lstrip (" " :: spaces ++ "/" :: rest))
        with (lstrip (spaces ++ "/" :: rest)).
      rewrite (lstrip_spaces _ _ Hs). reflexivity. }
    rewrite E. destruct Hk as [-> | ->].
    + unfold Validate.has_prefix, Validate.has_path, Validate.spaces_then_slash.
      cbn [lit list_ascii_of_string app existsb startswith skipn].
      rewrite !ascii_eqb_refl, Hl. reflexivity.
    + unfold Validate.has_prefix, Validate.has_path, Validate.spaces_then_slash.
      cbn [lit list_ascii_of_string app existsb startswith skipn].
      rewrite !ascii_eqb_refl, Hl. reflexivity.
Qed.

Lemma validate_from_passes (commands : list text) :
  forall i, Validate.validate_from i commands = [] <-> Forall passes_syntax commands.
Proof.
  induction commands as [|cmd commands IH]; intros i; cbn [Validate.validate_from].
  - split; [constructor | reflexivity].
  - rewrite List.Forall_cons_iff.
    destruct (strip cmd) as [|c t] eqn:E.
    + assert (Hp : passes_syntax cmd) by (left; exact E).
      rewrite IH. tauto.
    + destruct (startswith (lit "#") (c :: t)) eqn:Hc.
      * assert (Hp : passes_syntax cmd) by (right; left; rewrite E; exact Hc).
        rewrite IH. tauto.
      * assert (Hne : strip cmd <> []) by (rewrite E; discriminate).
        pose proof (passes_syntax_checks cmd Hne) as H. rewrite E in H.
        specialize (H Hc).
        destruct (Validate.has_prefix (c :: t)); cbn [negb andb] in *.
        -- destruct (Validate.has_path (c :: t)); cbn [negb] in *.
           ++ rewrite IH. tauto.
           ++ split; [discriminate|]. intros [Hp _]. apply H in Hp. discriminate.
        -- split; [discriminate|]. intros [Hp _]. apply H in Hp. discriminate.
Qed.

(** X21.  [validate_syntax] reports no error exactly when every command,
    once trimmed, is empty, or a comment that starts with [#], or made of
    the keyword [set] or [delete], one space, any further white space, and
    a path that starts with [/]. *)
Theorem validate_syntax_accepts (commands : list text) :
  Validate.validate_syntax commands = [] <-> Forall passes_syntax commands.
Proof. apply validate_from_passes. Qed.

Lemma validate_from_lines (commands : list text) :
  forall i e,
    In e (Validate.validate_from i commands) ->
    exists k original,
      Validate.line e = i + k + 1
      /\ nth_error commands k = Some original
      /\ Validate.command e = strip original
      /\ strip original <> []
      /\ startswith (lit "#") (strip original) = false.
Proof.
  induction commands as [|cmd commands IH]; intros i e He;
    cbn [Validate.validate_from] in He; [destruct He|].
  assert (Hrest : In e (Validate.validate_from (S i) commands) ->
                  exists k original,
                    Validate.line e = i + k + 1
                    /\ nth_error (cmd :: commands) k = Some original
                    /\ Validate.command e = strip original
                    /\ strip original <> []
                    /\ startswith (lit "#") (strip original) = false).
  { intros H. destruct (IH (S i) e H) as (k & o & Hl & Hn & Hc & Hs).
    exists (S k), o. split; [lia|]. split; [exact Hn|]. split; tauto. }
  destruct (strip cmd) as [|c t] eqn:E; [auto|].
  destruct (startswith (lit "#") (c :: t)) eqn:Hc; [auto|].
  assert (Hhere : forall r, e = {| Validate.line := i + 1; Validate.command := c :: t;
                                   Validate.message := r |} ->
                  exists k original,
                    Validate.line e = i + k + 1
                    /\ nth_error (cmd :: commands) k = Some original
                    /\ Validate.command e = strip original
                    /\ strip original <> []
                    /\ startswith (lit "#") (strip original) = false).
  { intros r ->. exists 0, cmd. cbn. rewrite E. repeat split; [lia | discriminate | exact Hc]. }
  destruct (Validate.has_prefix (c :: t)); cbn [negb] in He.
  - destruct (Validate.has_path (c :: t)); cbn [negb] in He; [auto|].
    destruct He as [<- | He]; [eapply Hhere; reflexivity | auto].
  - destruct He as [<- | He]; [eapply Hhere; reflexivity | auto].
Qed.

Lemma validate_from_length (commands : list text) :
  forall i, length (Validate.validate_from i commands) <= length commands.
Proof.
  induction commands as [|cmd commands IH]; intros i;
    cbn [Validate.validate_from length]; [lia|].
  specialize (IH (S i)).
  destruct (strip cmd); [lia|].
  destruct (startswith _ _); [lia|].
  destruct (Validate.has_prefix _); cbn [negb]; [|simpl; lia].
  destruct (Validate.has_path _); cbn [negb]; [lia | simpl; lia].
Qed.

(** X22.  Every error of [validate_syntax] points at its command: the line
    number, counted from 1, is the position of a command of the input, the
    reported text is that command trimmed, and that command is neither
    empty nor a comment.  There is at most one error per command. *)
Theorem validate_syntax_error_lines (commands : list text) :
  length (Validate.validate_syntax commands) <= length commands
  /\ (forall e, In e (Validate.validate_syntax commands) ->
        exists original,
          1 <= Validate.line e <= length commands
          /\ nth_error commands (Validate.line e - 1) = Some original
          /\ Validate.command e = strip original
          /\ strip original <> []
          /\ startswith (lit "#") (strip original) = false).
Proof.
  split; [apply validate_from_length|].
  intros e He. destruct (validate_from_lines commands 0 e He)
    as (k & o & Hl & Hn & Hc & Hne & Hcom).
  exists o. rewrite Hl. replace (0 + k + 1 - 1) with k by lia.
  assert (k < length commands) by (apply nth_error_Some; congruence).
  repeat split; auto; lia.
Qed.

(** ** The run of srlinux_validate *)




(** ** The run of srlinux_config *)

Lemma clean_diff_output_stripped (diff_output : text) :
  strip (_clean_diff_output diff_output) = _clean_diff_output diff_output.
Proof.
  unfold _clean_diff_output. cbv zeta.
  set (r := strip (join_lines _)).
  assert (Hr : strip r = r) by apply strip_idempotent.
  destruct r as [|h t]; [reflexivity|].
  destruct (negb (existsb significant (h :: t))); [reflexivity | exact Hr].
Qed.

Lemma check_config_diff_run (lines : list text) (d : device) (s : session) :
  connected s || reachable d = true ->
  mentions "candidate" (respond d (sent s ++ [lit "enter candidate"])) = true ->
  check_config_diff lines d s
  = (Returned (_clean_diff_output
                 (respond d ((sent s ++ [lit "enter candidate"])
                               ++ statements lines ++ [lit "diff"]))),
     {| connected := true;
        sent := (sent s ++ [lit "enter candidate"]) ++ statements lines
                ++ [lit "diff"; lit "discard now"; lit "quit"] |}).
Proof.
  intros Hconn Hcand. unfold check_config_diff.
  unfold bind at 1. rewrite (connect_ok d s Hconn).
  unfold bind at 1. rewrite (enter_candidate_acknowledged d (sent s) Hcand).
  unfold bind at 1. rewrite send_all_connected.
  unfold bind at 1. rewrite send_command_connected.
  unfold bind at 1. rewrite send_command_connected.
  unfold bind, exit_candidate_mode, bind, ret. rewrite send_command_connected.
  rewrite <- !app_assoc. reflexivity.
Qed.

Lemma has_changes_not_empty (diff : text) : has_changes diff = true -> diff <> [].
Proof. intros H ->. discriminate H. Qed.

Lemma config_main_with_lines (h : Compare.host) (check_mode : bool)
    (p : ConfigMain.params) (d : device) (s : session) (l : text) (ls : list text) :
  config_lines h p = Some (l :: ls) ->
  ConfigMain.main h check_mode p d s
  = finish (ConfigMain.apply_lines h check_mode (ConfigMain.commit p) (l :: ls)) d s.
Proof.
  unfold config_lines, ConfigMain.main. cbv zeta. intros H.
  destruct (ConfigMain.src p) as [[|c f]|];
    try (match type of H with
         | context [Compare.file h ?x] => destruct (Compare.file h x); [|discriminate H]
         end);
    injection H as H; rewrite H; reflexivity.
Qed.

Lemma config_main_check_run
    (h : Compare.host) (p : ConfigMain.params) (d : device) (s : session)
    (lines : list text) :
  config_lines h p = Some lines ->
  lines <> [] ->
  Compare.has_paramiko h = true ->
  connected s || reachable d = true ->
  let log := sent s ++ [lit "enter candidate"] in
  let diff := _clean_diff_output (respond d (log ++ statements lines ++ [lit "diff"])) in
  mentions "candidate" (respond d log) = true ->
  ConfigMain.main h true p d s
  = (ExitJson {| changed := negb (bool_decide (diff = []));
                 commands := lines; diff := diff |},
     {| connected := false;
        sent := log ++ statements lines
                ++ [lit "diff"; lit "discard now"; lit "quit"] |}).
Proof.
  intros Hlines Hne Hpar Hconn log diff Hcand.
  destruct lines as [|l ls]; [contradiction|].
  rewrite (config_main_with_lines h true p d s l ls Hlines).
  unfold finish, ConfigMain.apply_lines. rewrite Hpar.
  unfold bind at 1. unfold ret at 1. unfold Compare.try_except.
  unfold bind at 1. unfold bind at 1.
  rewrite (check_config_diff_run (l :: ls) d s Hconn Hcand).
  fold log diff. unfold ret at 1. unfold bind, Compare.disconnect, ret.
  cbn [sent]. unfold blank.
  assert (Hd : strip diff = diff) by apply clean_diff_output_stripped.
  rewrite Hd. destruct diff; reflexivity.
Qed.

(** X24.  In check mode srlinux_config is a dry run: with the lines given
    and candidate mode granted, it sends the statements, [diff],
    [discard now] and [quit], never [commit now] whatever [commit] says,
    and closes the session.  It reports every line as a command, blank
    ones included, the cleaned diff, and [changed] exactly when that diff
    is not empty. *)
Theorem config_main_check_mode
    (h : Compare.host) (p : ConfigMain.params) (d : device) (s : session)
    (lines : list text) :
  config_lines h p = Some lines ->
  lines <> [] ->
  Compare.has_paramiko h = true ->
  connected s || reachable d = true ->
  let log := sent s ++ [lit "enter candidate"] in
  let diff := _clean_diff_output (respond d (log ++ statements lines ++ [lit "diff"])) in
  mentions "candidate" (respond d log) = true ->
  ConfigMain.main h true p d s
  = (ExitJson {| changed := negb (bool_decide (diff = []));
                 commands := lines; diff := diff |},
     {| connected := false;
        sent := log ++ statements lines
                ++ [lit "diff"; lit "discard now"; lit "quit"] |}).
Proof. exact (config_main_check_run h p d s lines). Qed.

Lemma config_main_check_mode_witness :
  ConfigMain.main with_paramiko true description_only unsigned_diff_device fresh
  = (ExitJson {| changed := true;
                 commands := [lit "set / interface ethernet-1/1 description uplink"];
                 diff := lit "description uplink" |},
     {| connected := false;
        sent := [lit "enter candidate";
                 lit "set / interface ethernet-1/1 description uplink";
                 lit "diff"; lit "discard now"; lit "quit"] |}).
Proof.
  rewrite (config_main_check_mode with_paramiko description_only unsigned_diff_device
             fresh [lit "set / interface ethernet-1/1 description uplink"]);
    [reflexivity | reflexivity | discriminate | reflexivity | reflexivity | reflexivity].
Defined.

Lemma send_config_accepted (lines : list text) (commit : bool) (d : device) (s : session) :
  lines <> [] ->
  connected s || reachable d = true ->
  let log := sent s ++ [lit "enter candidate"] in
  let diff := _clean_diff_output (respond d (log ++ statements lines ++ [lit "diff"])) in
  mentions "candidate" (respond d log) = true ->
  accepted d log (statements lines) = true ->
  forall r s', send_config lines commit d s = (Returned r, s') ->
               changed r = has_changes diff.
Proof.
  intros Hne Hconn log diff Hcand Hacc r s'.
  rewrite (send_config_reaches_diff lines commit d s Hne Hconn Hcand Hacc).
  cbv zeta. fold log diff. destruct (has_changes diff); [destruct commit|].
  - unfold bind at 1. unfold bind at 1. rewrite send_command_connected.
    match goal with |- context [if ?b then _ else _] => destruct b end.
    + unfold bind, exit_candidate_mode, bind, fail_json, ret.
      rewrite send_command_connected. discriminate.
    + unfold bind, exit_candidate_mode, bind, ret.
      rewrite send_command_connected. intros H. injection H as <- _. reflexivity.
  - unfold bind, exit_candidate_mode, bind, ret.
    rewrite send_command_connected. intros H. injection H as <- _. reflexivity.
  - unfold bind, exit_candidate_mode, bind, ret.
    rewrite !send_command_connected. intros H. injection H as <- _. reflexivity.
Qed.

(** X25.  Check mode and apply mode of srlinux_config decide [changed] by
    different tests on the same cleaned diff.  Whenever the apply run
    reports a change, the check run on the same device reports one too;
    but for a diff that is not empty and shows no change by the test of
    [send_config], the check run reports [changed] and the apply run does
    not. *)
Theorem config_main_check_and_apply
    (h : Compare.host) (p : ConfigMain.params) (d : device) (s : session)
    (lines : list text) :
  config_lines h p = Some lines ->
  lines <> [] ->
  Compare.has_paramiko h = true ->
  connected s || reachable d = true ->
  let log := sent s ++ [lit "enter candidate"] in
  let diff := _clean_diff_output (respond d (log ++ statements lines ++ [lit "diff"])) in
  mentions "candidate" (respond d log) = true ->
  accepted d log (statements lines) = true ->
  (forall applied checked,
      fst (ConfigMain.main h false p d s) = ExitJson applied ->
      fst (ConfigMain.main h true p d s) = ExitJson checked ->
      (changed applied = true -> changed checked = true)
      /\ (diff <> [] -> has_changes diff = false ->
          changed checked = true /\ changed applied = false)).
Proof.
  intros Hlines Hne Hpar Hconn log diff Hcand Hacc applied checked Ha Hc.
  rewrite (config_main_check_run h p d s lines Hlines Hne Hpar Hconn Hcand) in Hc.
  cbn [fst] in Hc. injection Hc as <-. cbn [changed]. fold log diff.
  assert (Happlied : changed applied = has_changes diff).
  { destruct lines as [|l ls]; [contradiction|].
    rewrite (config_main_with_lines h false p d s l ls Hlines) in Ha.
    unfold finish, ConfigMain.apply_lines in Ha. rewrite Hpar in Ha.
    unfold bind at 1 in Ha. unfold ret at 1 in Ha.
    unfold Compare.try_except in Ha. unfold bind at 1 in Ha.
    destruct (send_config (l :: ls) (ConfigMain.commit p) d s) as [[r | e | f] s'] eqn:E;
      cbn in Ha; try discriminate Ha.
    injection Ha as <-.
    exact (send_config_accepted (l :: ls) _ d s Hne Hconn Hcand Hacc r s' E). }
  split.
  - intros H. rewrite Happlied in H. apply has_changes_not_empty in H.
    rewrite bool_decide_eq_false_2 by exact H. reflexivity.
  - intros Hd Hno. rewrite bool_decide_eq_false_2 by exact Hd.
    split; [reflexivity | congruence].
Qed.

Lemma config_main_check_and_apply_witness :
  fst (ConfigMain.main with_paramiko true description_only unsigned_diff_device fresh)
  = ExitJson {| changed := true;
                commands := [lit "set / interface ethernet-1/1 description uplink"];
                diff := lit "description uplink" |}
  /\ fst (ConfigMain.main with_paramiko false description_only unsigned_diff_device fresh)
     = ExitJson {| changed := false;
                   commands := [lit "set / interface ethernet-1/1 description uplink"];
                   diff := lit "description uplink" |}
  /\ changed {| changed := true;
                commands := [lit "set / interface ethernet-1/1 description uplink"];
                diff := lit "description uplink" |} = true
  /\ changed {| changed := false;
                commands := [lit "set / interface ethernet-1/1 description uplink"];
                diff := lit "description uplink" |} = false.
Proof.
  split; [reflexivity|]. split; [reflexivity|].
  apply (config_main_check_and_apply with_paramiko description_only unsigned_diff_device
           fresh [lit "set / interface ethernet-1/1 description uplink"]
           eq_refl ltac:(discriminate) eq_refl eq_refl eq_refl eq_refl
           _ _ eq_refl eq_refl);
    [discriminate | reflexivity].
Defined.

(** ** The commands of srlinux_resource *)

Lemma lstrip_app_kept (a b : text) :
  match b with
  | c :: _ => isspace c = false
  | [] => False
  end ->
  lstrip (a ++ b) = lstrip a ++ b.
Proof.
  intros Hb. induction a as [|x a IH]; simpl.
  - destruct b as [|c b]; [destruct Hb|]. simpl. rewrite Hb. reflexivity.
  - destruct (isspace x); [exact IH | reflexivity].
Qed.

Lemma strip_keeps_prefix (p rest : text) :
  match p with c :: _ => isspace c = false | [] => False end ->
  match rev p with c :: _ => isspace c = false | [] => False end ->
  strip (p ++ rest) = p ++ rstrip rest.
Proof.
  intros Hhead Hlast. unfold strip.
  assert (E : lstrip (p ++ rest) = p ++ rest).
  { destruct p as [|c p]; [destruct Hhead|]. simpl. rewrite Hhead. reflexivity. }
  rewrite E. unfold rstrip. rewrite rev_app_distr, (lstrip_app_kept _ _ Hlast).
  rewrite rev_app_distr, rev_involutive. reflexivity.
Qed.

Lemma passes_syntax_set (r : text) : passes_syntax (lit "set /" ++ r).
Proof.
  right. right. exists (lit "set"), [], (rstrip r).
  split; [left; reflexivity|]. split; [reflexivity|].
  apply (strip_keeps_prefix (lit "set /") r); reflexivity.
Qed.

Lemma passes_syntax_delete (r : text) : passes_syntax (lit "delete /" ++ r).
Proof.
  right. right. exists (lit "delete"), [], (rstrip r).
  split; [right; reflexivity|]. split; [reflexivity|].
  apply (strip_keeps_prefix (lit "delete /") r); reflexivity.
Qed.

Lemma set_each_passes (r : text) (render : Resource.value -> text)
    (config : list (text * Resource.value)) :
  Forall passes_syntax (Resource.set_each (lit "set /" ++ r) render config).
Proof.
  unfold Resource.set_each. apply List.Forall_forall. intros c Hc.
  apply List.in_map_iff in Hc. destruct Hc as (item & <- & _).
  rewrite <- app_assoc. apply passes_syntax_set.
Qed.

Lemma set_each_set (prefix : text) (render : Resource.value -> text)
    (config : list (text * Resource.value)) :
  startswith (lit "set ") prefix = true ->
  Forall (fun c => startswith (lit "set ") c = true)
         (Resource.set_each prefix render config).
Proof.
  intros H. apply startswith_spec in H. destruct H as [post ->].
  unfold Resource.set_each. apply List.Forall_forall. intros c Hc.
  apply List.in_map_iff in Hc. destruct Hc as (item & <- & _).
  apply startswith_spec. eexists. rewrite <- app_assoc. reflexivity.
Qed.

Lemma set_each_length (prefix : text) (render : Resource.value -> text)
    (config : list (text * Resource.value)) :
  length (Resource.set_each prefix render config) = length config.
Proof. unfold Resource.set_each. apply length_map. Qed.

(** X26.  For the state [absent], [build_commands] gives exactly one
    command, and it begins with [delete ]; the [config] dictionary plays no
    part.  This holds for every resource type, known or not. *)
Theorem build_commands_absent_deletes
    (resource_type name : text) (config : list (text * Resource.value))
    (network_instance : text) :
  exists rest,
    Resource.build_commands resource_type name config network_instance (lit "absent")
    = [lit "delete " ++ rest].
Proof.
  unfold Resource.build_commands. cbv zeta.
  destruct (decide (lit "absent" = lit "absent")) as [_|H]; [|contradiction].
  repeat case_decide; eexists; reflexivity.
Qed.

(** X27.  For any other state, [build_commands] gives one command per item
    of [config], in the order of the items, and one more in front for a
    network instance; every command begins with [set ].  An empty
    [config] therefore gives no command at all, except for a network
    instance. *)
Theorem build_commands_present_sets
    (resource_type name : text) (config : list (text * Resource.value))
    (network_instance state : text) :
  state <> lit "absent" ->
  let commands :=
    Resource.build_commands resource_type name config network_instance state in
  Forall (fun c => startswith (lit "set ") c = true) commands
  /\ length commands
     = length config + (if decide (resource_type = lit "network_instance") then 1 else 0).
Proof.
  intros Hstate. cbv zeta. unfold Resource.build_commands. cbv zeta.
  destruct (decide (state = lit "absent")) as [H|_]; [contradiction|].
  destruct (decide (resource_type = lit "interface")) as [->|Hi].
  { destruct (decide (lit "interface" = lit "network_instance")) as [E|_];
      [discriminate E|].
    split; [apply set_each_set; reflexivity | rewrite set_each_length; lia]. }
  destruct (decide (resource_type = lit "network_instance")) as [->|Hn].
  { split; [constructor; [reflexivity | apply set_each_set; reflexivity]|].
    cbn [length]. rewrite set_each_length. lia. }
  destruct (decide (resource_type = lit "bgp_neighbor")).
  { split; [apply set_each_set; reflexivity | rewrite set_each_length; lia]. }
  destruct (decide (resource_type = lit "static_route")).
  { split; [apply set_each_set; reflexivity | rewrite set_each_length; lia]. }
  split; [apply set_each_set; reflexivity | rewrite set_each_length; lia].
Qed.

Lemma build_commands_present_sets_witness :
  length (Resource.build_commands (lit "interface") (lit "ethernet-1/1")
            [(lit "admin_state", Resource.Bool true);
             (lit "description", Resource.Other (lit "uplink"))]
            (lit "default") (lit "present"))
  = 2 + 0.
Proof.
  apply (build_commands_present_sets (lit "interface") (lit "ethernet-1/1")
           [(lit "admin_state", Resource.Bool true);
            (lit "description", Resource.Other (lit "uplink"))]
           (lit "default") (lit "present")).
  discriminate.
Defined.

Lemma base_path_rooted (resource_type network_instance : text) :
  In resource_type Resource.resource_types ->
  exists r,
    Resource.replace (lit "{ni}") network_instance
      (match Resource.RESOURCE_PATHS !! resource_type with
       | Some path => path
       | None => []
       end)
    = "/" :: r.
Proof.
  intros H. unfold Resource.resource_types in H.
  repeat (destruct H as [<- | H]; [eexists; vm_compute; reflexivity|]).
  destruct H.
Qed.

Ltac passes_by_shape :=
  match goal with
  | |- Forall passes_syntax [lit "delete / interface " ++ ?n] =>
      constructor; [exact (passes_syntax_delete (lit " interface " ++ n)) | constructor]
  | |- Forall passes_syntax [lit "delete / network-instance " ++ ?n] =>
      constructor; [exact (passes_syntax_delete (lit " network-instance " ++ n)) | constructor]
  | |- Forall passes_syntax [lit "delete " ++ ("/" :: ?r) ++ ?t] =>
      constructor; [exact (passes_syntax_delete (r ++ t)) | constructor]
  | |- Forall passes_syntax (Resource.set_each (lit "set / interface " ++ ?n) _ _) =>
      exact (set_each_passes (lit " interface " ++ n) _ _)
  | |- Forall passes_syntax (Resource.set_each (lit "set / network-instance " ++ ?n) _ _) =>
      exact (set_each_passes (lit " network-instance " ++ n) _ _)
  | |- Forall passes_syntax (Resource.set_each (lit "set " ++ ("/" :: ?r) ++ ?t) _ _) =>
      exact (set_each_passes (r ++ t) _ _)
  | |- Forall passes_syntax ((lit "set / network-instance " ++ ?n) :: _) =>
      constructor; [exact (passes_syntax_set (lit " network-instance " ++ n)) | passes_by_shape]
  end.

(** X28.  For each of the nine resource types the module accepts, every
    command [build_commands] gives, for any name, configuration, network
    instance and state, passes the syntax check of srlinux_validate:
    [validate_syntax] reports no error on them. *)
Theorem build_commands_pass_validate_syntax
    (resource_type name : text) (config : list (text * Resource.value))
    (network_instance state : text) :
  In resource_type Resource.resource_types ->
  Validate.validate_syntax
    (Resource.build_commands resource_type name config network_instance state) = [].
Proof.
  intros H. apply validate_from_passes.
  destruct (base_path_rooted resource_type network_instance H) as [r E].
  unfold Resource.build_commands. cbv zeta. rewrite E.
  repeat case_decide; passes_by_shape.
Qed.

Lemma build_commands_pass_validate_syntax_witness :
  Validate.validate_syntax
    (Resource.build_commands (lit "bgp_group") (lit "spines")
       [(lit "peer_as", Resource.Other (lit "65000"))] (lit "default") (lit "present"))
  = [].
Proof.
  apply build_commands_pass_validate_syntax. vm_compute. tauto.
Defined.

(** ** The prompt pattern *)

Lemma forallb_rev (f : ascii -> bool) (l : text) : forallb f (rev l) = forallb f l.
Proof.
  induction l as [|c l IH]; [reflexivity|]. simpl.
  rewrite forallb_app, IH. simpl. rewrite andb_true_r. apply andb_comm.
Qed.

(** X29.  The prompt test that ends a read holds exactly for the texts that
    end in [#] or [>] followed by nothing but white space, line feeds
    included: what comes before that last character does not matter, so a
    line of output that ends in [>] is taken for a prompt as well. *)
Theorem prompt_matches_trailing_marker (s : text) :
  prompt s = true
  <-> exists before marker spaces,
        s = before ++ marker :: spaces
        /\ (marker = "#" \/ marker = ">")
        /\ forallb isspace spaces = true.
Proof.
  unfold prompt. split.
  - destruct (lstrip_decompose (rev s)) as (spaces & Hs & E).
    destruct (lstrip (rev s)) as [|c t]; [discriminate|]. intros H.
    exists (rev t), c, (rev spaces). split; [|split].
    + rewrite <- (rev_involutive s), E, rev_app_distr. simpl.
      rewrite <- app_assoc. reflexivity.
    + apply orb_true_iff in H. destruct H as [H | H]; apply ascii_eqb_eq in H; auto.
    + rewrite forallb_rev. exact Hs.
  - intros (before & marker & spaces & -> & Hm & Hs).
    rewrite rev_app_distr. simpl. rewrite <- app_assoc. simpl.
    rewrite lstrip_spaces by (rewrite forallb_rev; exact Hs).
    destruct Hm as [-> | ->]; reflexivity.
Qed.
